(** * homelab-setup: marker store, step orchestration, dry-run gateway

    A shallow embedding of the state-persistence and step-orchestration
    core of the Go program [homelab-setup]:

    - [internal/config/markers.go]   (module [Markers])
    - [internal/config/keys.go]      (module [Config])
    - [internal/steps/marker_helpers.go] (module [Steps])
    - [internal/cli/setup.go]        (module [Cli])
    - [internal/system/filesystem_dryrun.go] (module [DryRun])

    Go functions that touch the file system become state transformers
    over an explicit model of the marker directory; Go's [error] results
    become [option error] ([None] is [nil]). *)

From stdpp Require Import gmap strings list sorting.
From Stdlib Require Import String Ascii List Bool NArith ZArith.
Import ListNotations.
Local Open Scope string_scope.

(** ** Go errors *)

(** The [syscall.Errno] values the model distinguishes. *)
Inductive Errno := EEXIST | ENOENT | EACCES | ENOSPC | EROFS | EIO.

Definition Errno_Error (e : Errno) : string :=
  match e with
  | EEXIST => "file exists"
  | ENOENT => "no such file or directory"
  | EACCES => "permission denied"
  | ENOSPC => "no space left on device"
  | EROFS => "read-only file system"
  | EIO => "input/output error"
  end.

(** Values of Go's [error] interface that this code produces:
    - [errorString s]: [fmt.Errorf] without [%w], message already rendered;
    - [PathError op path e]: [*os.PathError];
    - [wrapError msg err]: [fmt.Errorf(msg ++ "%w", err)]. *)
Inductive error :=
| errorString (s : string)
| PathError (op path : string) (e : Errno)
| wrapError (msg : string) (err : error).

Fixpoint Error (err : error) : string :=
  match err with
  | errorString s => s
  | PathError op path e => op ++ " " ++ path ++ ": " ++ Errno_Error e
  | wrapError msg inner => msg ++ Error inner
  end.

(** [os.IsExist] and [os.IsNotExist] look through [*PathError] only. *)
Definition os_IsExist (err : error) : bool :=
  match err with PathError _ _ EEXIST => true | _ => false end.

Definition os_IsNotExist (err : error) : bool :=
  match err with PathError _ _ ENOENT => true | _ => false end.

(** [errors.Unwrap]. *)
Definition Unwrap (err : error) : option error :=
  match err with wrapError _ inner => Some inner | _ => None end.

(** ** The marker directory as seen through package [os] *)

(** System calls issued against the marker directory [m.dir].  A marker
    path is [filepath.Join(m.dir, name)]; since every name that reaches
    the file system is a single path component, the entry name
    identifies the path: paths are written relative to [m.dir], and
    ["."] is [m.dir] itself. *)
Inductive Syscall :=
| SysMkdirAll
| SysCreate (name : string)
| SysOpenExcl (name : string)
| SysStat (name : string)
| SysRemove (name : string).

(** State of the marker directory:
    - [tree]: [None] when [m.dir] does not exist, otherwise the set of
      marker files in it;
    - [fault]: the environment's I/O failures (permissions, full disk,
      ...), an errno per system call that fails for a reason other than
      the directory's content;
    - [calls]: every system call issued so far, oldest first. *)
Record FS := mkFS {
  tree : option (gset string);
  fault : Syscall -> option Errno;
  calls : list Syscall
}.

Definition issue (c : Syscall) (s : FS) : FS :=
  mkFS (tree s) (fault s) (calls s ++ [c]).

Definition set_tree (t : gset string) (s : FS) : FS :=
  mkFS (Some t) (fault s) (calls s).

Definition entries (s : FS) : gset string :=
  match tree s with Some t => t | None => ∅ end.

(** A small state monad for code that threads a state through calls. *)
Definition M (S A : Type) : Type := S -> A * S.

Definition ret {S A} (a : A) : M S A := fun s => (a, s).

Definition bind {S A B} (m : M S A) (k : A -> M S B) : M S B :=
  fun s => let (a, s') := m s in k a s'.

Notation "x <- m ;; k" := (bind m (fun x => k))
  (at level 100, m at next level, right associativity).
Notation "m ;;; k" := (bind m (fun _ => k))
  (at level 100, right associativity).

(** [os.MkdirAll(m.dir, 0755)] *)
Definition os_MkdirAll : M FS (option error) := fun s =>
  let s := issue SysMkdirAll s in
  match fault s SysMkdirAll with
  | Some e => (Some (PathError "mkdir" "." e), s)
  | None => (None, set_tree (entries s) s)
  end.

(** [os.Create(markerPath)]: open with [O_RDWR|O_CREATE|O_TRUNC]. *)
Definition os_Create (name : string) : M FS (option error) := fun s =>
  let s := issue (SysCreate name) s in
  match fault s (SysCreate name) with
  | Some e => (Some (PathError "open" name e), s)
  | None =>
      match tree s with
      | None => (Some (PathError "open" name ENOENT), s)
      | Some t => (None, set_tree ({[name]} ∪ t) s)
      end
  end.

(** [os.OpenFile(markerPath, O_CREATE|O_EXCL|O_WRONLY, 0644)] *)
Definition os_OpenFile_excl (name : string) : M FS (option error) := fun s =>
  let s := issue (SysOpenExcl name) s in
  match fault s (SysOpenExcl name) with
  | Some e => (Some (PathError "open" name e), s)
  | None =>
      match tree s with
      | None => (Some (PathError "open" name ENOENT), s)
      | Some t =>
          if bool_decide (name ∈ t)
          then (Some (PathError "open" name EEXIST), s)
          else (None, set_tree ({[name]} ∪ t) s)
      end
  end.

(** [os.Stat(markerPath)]; only the error is used by the callers. *)
Definition os_Stat (name : string) : M FS (option error) := fun s =>
  let s := issue (SysStat name) s in
  match fault s (SysStat name) with
  | Some e => (Some (PathError "stat" name e), s)
  | None =>
      if bool_decide (name ∈ entries s)
      then (None, s)
      else (Some (PathError "stat" name ENOENT), s)
  end.

(** [os.Remove(markerPath)] *)
Definition os_Remove (name : string) : M FS (option error) := fun s =>
  let s := issue (SysRemove name) s in
  match fault s (SysRemove name) with
  | Some e => (Some (PathError "remove" name e), s)
  | None =>
      match tree s with
      | None => (Some (PathError "remove" name ENOENT), s)
      | Some t =>
          if bool_decide (name ∈ t)
          then (None, set_tree (t ∖ {[name]}) s)
          else (Some (PathError "remove" name ENOENT), s)
      end
  end.

(** [strings.Contains] *)
Fixpoint strings_Contains (s substr : string) : bool :=
  if String.prefix substr s then true
  else match s with
       | EmptyString => false
       | String _ rest => strings_Contains rest substr
       end.

(** ** internal/config/markers.go *)
Module Markers.

Definition validateMarkerName (name : string) : option error :=
  if name =? "" then
    Some (errorString "marker name cannot be empty")
  else if strings_Contains name "/" || strings_Contains name "\" then
    Some (errorString ("marker name cannot contain path separators: " ++ name))
  else if (name =? "..") || (name =? ".") then
    Some (errorString ("marker name cannot be '.' or '..': " ++ name))
  else None.

Definition Create (name : string) : M FS (option error) :=
  match validateMarkerName name with
  | Some err => ret (Some err)
  | None =>
      mkErr <- os_MkdirAll ;;
      match mkErr with
      | Some err => ret (Some (wrapError "failed to create marker directory: " err))
      | None =>
          err <- os_Create name ;;
          match err with
          | Some err => ret (Some (wrapError "failed to create marker file: " err))
          | None => ret None
          end
      end
  end.

Definition CreateIfNotExists (name : string) : M FS (bool * option error) :=
  match validateMarkerName name with
  | Some err => ret (false, Some err)
  | None =>
      mkErr <- os_MkdirAll ;;
      match mkErr with
      | Some err =>
          ret (false, Some (wrapError "failed to create marker directory: " err))
      | None =>
          err <- os_OpenFile_excl name ;;
          match err with
          | Some err =>
              if os_IsExist err then ret (false, None)
              else ret (false, Some (wrapError "failed to create marker file: " err))
          | None => ret (true, None)
          end
      end
  end.

Definition Exists (name : string) : M FS (bool * option error) :=
  match validateMarkerName name with
  | Some err => ret (false, Some err)
  | None =>
      err <- os_Stat name ;;
      match err with
      | None => ret (true, None)
      | Some err =>
          if os_IsNotExist err then ret (false, None)
          else ret (false, Some (wrapError "failed to check marker existence: " err))
      end
  end.

Definition Remove (name : string) : M FS (option error) :=
  match validateMarkerName name with
  | Some err => ret (Some err)
  | None =>
      err <- os_Remove name ;;
      match err with
      | Some e => if os_IsNotExist e then ret None else ret (Some e)
      | None => ret None
      end
  end.

Definition MarkFailed (name : string) : M FS (option error) :=
  Create (name ++ "-failed").

Definition ClearFailure (name : string) : M FS (option error) :=
  Remove (name ++ "-failed").

Definition IsFailed (name : string) : M FS (bool * option error) :=
  Exists (name ++ "-failed").

Inductive StepStatus := StepNotStarted | StepCompleted | StepFailed.

Definition GetStatus (name : string) : M FS (StepStatus * option error) :=
  r <- IsFailed name ;;
  let '(failed, err) := r in
  match err with
  | Some err => ret (StepNotStarted, Some err)
  | None =>
      if failed then ret (StepFailed, None)
      else
        r <- Exists name ;;
        let '(completed, err) := r in
        match err with
        | Some err => ret (StepNotStarted, Some err)
        | None =>
            if completed then ret (StepCompleted, None)
            else ret (StepNotStarted, None)
        end
  end.

End Markers.

(** ** internal/steps/marker_helpers.go *)
Module Steps.

(** The [for _, legacyName := range legacy] loop of
    [ensureCanonicalMarker]; [continue] is the recursive call on the
    remaining aliases. *)
Fixpoint migrateLegacy (canonical : string) (legacy : list string)
  : M FS (bool * option error) :=
  match legacy with
  | [] => ret (false, None)
  | legacyName :: rest =>
      if (legacyName =? "") || (legacyName =? canonical) then
        migrateLegacy canonical rest
      else
        r <- Markers.Exists legacyName ;;
        let '(legacyExists, err) := r in
        match err with
        | Some err => ret (false, Some err)
        | None =>
            if negb legacyExists then migrateLegacy canonical rest
            else
              r <- Markers.CreateIfNotExists canonical ;;
              let '(wasCreated, err) := r in
              match err with
              | Some err => ret (false, Some err)
              | None =>
                  (if wasCreated then Markers.Remove legacyName ;;; ret tt
                   else ret tt) ;;;
                  ret (true, None)
              end
        end
  end.

Definition ensureCanonicalMarker (canonical : string) (legacy : list string)
  : M FS (bool * option error) :=
  r <- Markers.Exists canonical ;;
  let '(exists_, err) := r in
  match err with
  | Some err => ret (false, Some err)
  | None =>
      if exists_ then ret (true, None)
      else migrateLegacy canonical legacy
  end.

End Steps.

(** ** The user interface as an output log *)

Inductive FmtArg :=
| ArgString (s : string)
| ArgOctal (n : N)
| ArgDecimal (n : Z).

(** One entry per call of a [ui.UI] output method; the [f]-variants keep
    the format string and its arguments apart. *)
Inductive UIMsg :=
| UIHeader (s : string)
| UIInfo (s : string)
| UIWarning (s : string)
| UISuccess (s : string)
| UIInfof (format : string) (args : list FmtArg)
| UIWarningf (format : string) (args : list FmtArg).

(** ** internal/cli/setup.go *)
Module Cli.

(** What a [*SetupContext] gives access to: the marker directory behind
    [ctx.Markers], the terminal behind [ctx.UI], and the rest of the
    machine ([Host]: users, mounts, services, the configuration file),
    which only the step implementations touch. *)
Record World (Host : Type) := mkWorld {
  markers : FS;
  ui : list UIMsg;
  host : Host
}.
Arguments mkWorld {Host}.
Arguments markers {Host}.
Arguments ui {Host}.
Arguments host {Host}.

(** Code of other packages called from this file: the prompt of
    [ui.UI] and the [Run] methods of package [steps]. *)
Record Collaborators (Host : Type) := mkCollaborators {
  PromptYesNo : string -> bool -> M (World Host) (bool * option error);
  PreflightChecker_RunAll : M (World Host) (option error);
  UserConfigurator_Run : M (World Host) (option error);
  DirectorySetup_Run : M (World Host) (option error);
  WireGuardSetup_Run : M (World Host) (option error);
  NFSConfigurator_Run : M (World Host) (option error);
  ContainerSetup_Run : M (World Host) (option error);
  Deployment_Run : M (World Host) (option error)
}.
Arguments PromptYesNo {Host}.
Arguments PreflightChecker_RunAll {Host}.
Arguments UserConfigurator_Run {Host}.
Arguments DirectorySetup_Run {Host}.
Arguments WireGuardSetup_Run {Host}.
Arguments NFSConfigurator_Run {Host}.
Arguments ContainerSetup_Run {Host}.
Arguments Deployment_Run {Host}.

Record StepInfo := mkStepInfo {
  Name : string;
  ShortName : string;
  Description : string;
  MarkerName : string;
  Optional : bool
}.

Definition GetAllSteps : list StepInfo :=
  [ mkStepInfo "Pre-flight Check" "preflight" "Verify system requirements"
      "preflight-complete" false;
    mkStepInfo "User Setup" "user" "Configure user account and permissions"
      "user-setup-complete" false;
    mkStepInfo "Directory Setup" "directory" "Create directory structure"
      "directory-setup-complete" false;
    mkStepInfo "WireGuard Setup" "wireguard" "Configure VPN (optional)"
      "wireguard-setup-complete" true;
    mkStepInfo "NFS Setup" "nfs" "Configure network storage"
      "nfs-setup-complete" false;
    mkStepInfo "Container Setup" "container" "Configure container services"
      "container-setup-complete" false;
    mkStepInfo "Service Deployment" "deployment" "Deploy and start services"
      "service-deployment-complete" false ].

Section Setup.
Context {Host : Type}.

(** A call on [ctx.Markers]. *)
Definition onMarkers {A} (m : M FS A) : M (World Host) A := fun w =>
  let (a, s) := m (markers w) in (a, mkWorld s (ui w) (host w)).

(** A call of an output method of [ctx.UI]. *)
Definition say (msg : UIMsg) : M (World Host) unit := fun w =>
  (tt, mkWorld (markers w) (ui w ++ [msg]) (host w)).

Definition IsStepComplete (markerName : string) : M (World Host) bool :=
  r <- onMarkers (Markers.Exists markerName) ;;
  let '(exists_, err) := r in
  match err with
  | Some _ => ret false
  | None => ret exists_
  end.

Definition removeMarkerIfRerun (markerName : string) (rerun : bool)
  : M (World Host) unit :=
  if rerun then
    err <- onMarkers (Markers.Remove markerName) ;;
    match err with
    | Some err => say (UIWarning ("Failed to remove marker: " ++ Error err))
    | None => ret tt
    end
  else ret tt.

(** The seven step runners [runPreflight] ... [runDeployment] are the same
    text up to the marker name, the message and the step implementation
    called at the end; [runGuarded] is that common text. *)
Definition runGuarded (c : Collaborators Host) (markerName info : string)
    (run : M (World Host) (option error)) : M (World Host) (option error) :=
  complete <- IsStepComplete markerName ;;
  if complete then
    say (UIInfo info) ;;;
    r <- PromptYesNo c "Run again?" false ;;
    let '(rerun, err) := r in
    match err with
    | Some _ => ret None
    | None =>
        if negb rerun then ret None
        else removeMarkerIfRerun markerName rerun ;;; run
    end
  else run.

Definition runPreflight (c : Collaborators Host) :=
  runGuarded c "preflight-complete" "Pre-flight check already completed"
    (PreflightChecker_RunAll c).

Definition runUser (c : Collaborators Host) :=
  runGuarded c "user-setup-complete" "User setup already completed"
    (UserConfigurator_Run c).

Definition runDirectory (c : Collaborators Host) :=
  runGuarded c "directory-setup-complete" "Directory setup already completed"
    (DirectorySetup_Run c).

Definition runWireGuard (c : Collaborators Host) :=
  runGuarded c "wireguard-setup-complete" "WireGuard setup already completed"
    (WireGuardSetup_Run c).

Definition runNFS (c : Collaborators Host) :=
  runGuarded c "nfs-setup-complete" "NFS setup already completed"
    (NFSConfigurator_Run c).

Definition runContainer (c : Collaborators Host) :=
  runGuarded c "container-setup-complete" "Container setup already completed"
    (ContainerSetup_Run c).

Definition runDeployment (c : Collaborators Host) :=
  runGuarded c "service-deployment-complete"
    "Service deployment already completed" (Deployment_Run c).

(** The [switch shortName] of [RunStep]: the marker name and the runner
    of a known step, [None] for the [default] case. *)
Definition selectStep (c : Collaborators Host) (shortName : string)
  : option (string * M (World Host) (option error)) :=
  if shortName =? "preflight" then Some ("preflight-complete", runPreflight c)
  else if shortName =? "user" then Some ("user-setup-complete", runUser c)
  else if shortName =? "directory" then
    Some ("directory-setup-complete", runDirectory c)
  else if shortName =? "wireguard" then
    Some ("wireguard-setup-complete", runWireGuard c)
  else if shortName =? "nfs" then Some ("nfs-setup-complete", runNFS c)
  else if shortName =? "container" then
    Some ("container-setup-complete", runContainer c)
  else if shortName =? "deployment" then
    Some ("service-deployment-complete", runDeployment c)
  else None.

(** What [RunStep] does once the step body has returned [err]. *)
Definition recordOutcome (shortName markerName : string) (err : option error)
  : M (World Host) (option error) :=
  match err with
  | Some err =>
      markErr <- onMarkers (Markers.MarkFailed markerName) ;;
      (match markErr with
       | Some markErr =>
           say (UIWarning ("Failed to create failure marker: " ++ Error markErr))
       | None => ret tt
       end) ;;;
      ret (Some err)
  | None =>
      clearErr <- onMarkers (Markers.ClearFailure markerName) ;;
      (match clearErr with
       | Some clearErr =>
           say (UIWarning ("Failed to clear failure marker: " ++ Error clearErr))
       | None => ret tt
       end) ;;;
      createErr <- onMarkers (Markers.Create markerName) ;;
      (match createErr with
       | Some createErr =>
           say (UIWarning
                  ("Failed to create completion marker: " ++ Error createErr))
       | None => ret tt
       end) ;;;
      say (UISuccess ("Step '" ++ shortName ++ "' completed successfully!")) ;;;
      ret None
  end.

Definition RunStep (c : Collaborators Host) (shortName : string)
  : M (World Host) (option error) :=
  say (UIHeader ("Running: " ++ shortName)) ;;;
  match selectStep c shortName with
  | None => ret (Some (errorString ("unknown step: " ++ shortName)))
  | Some (markerName, body) =>
      err <- body ;;
      recordOutcome shortName markerName err
  end.

(** The [for _, step := range steps] loop of [RunAll]. *)
Fixpoint runEach (c : Collaborators Host) (steps : list string)
  : M (World Host) (option error) :=
  match steps with
  | [] => ret None
  | step :: rest =>
      err <- RunStep c step ;;
      match err with
      | Some err => ret (Some (wrapError ("step " ++ step ++ " failed: ") err))
      | None => runEach c rest
      end
  end.

Definition RunAll (c : Collaborators Host) (skipWireGuard : bool)
  : M (World Host) (option error) :=
  let steps := ["preflight"; "user"; "directory"] in
  let steps := if negb skipWireGuard then (steps ++ ["wireguard"])%list else steps in
  let steps := (steps ++ ["nfs"; "container"; "deployment"])%list in
  err <- runEach c steps ;;
  match err with
  | Some err => ret (Some err)
  | None => say (UISuccess "All steps completed successfully!") ;;; ret None
  end.

End Setup.
End Cli.

(** ** internal/system/filesystem_dryrun.go *)
Module DryRun.

(** [os.FileMode] is a [uint32]. *)
Definition FileMode := N.

(** The wrapped [*FileSystem].  Its methods are not part of this
    development; they are arbitrary state transformers over a disk
    state [D], queries included. *)
Record FileSystem (D : Type) := mkFileSystem {
  fs_EnsureDirectory : string -> string -> FileMode -> M D (option error);
  fs_Chown : string -> string -> M D (option error);
  fs_ChownRecursive : string -> string -> M D (option error);
  fs_Chmod : string -> FileMode -> M D (option error);
  fs_ChmodRecursive : string -> FileMode -> M D (option error);
  fs_WriteFile : string -> list Byte.byte -> FileMode -> M D (option error);
  fs_RemoveDirectory : string -> M D (option error);
  fs_RemoveFile : string -> M D (option error);
  fs_CopyFile : string -> string -> M D (option error);
  fs_CreateSymlink : string -> string -> M D (option error);
  fs_FileExists : string -> M D (bool * option error);
  fs_DirectoryExists : string -> M D (bool * option error);
  fs_GetOwner : string -> M D (string * option error);
  fs_GetPermissions : string -> M D (FileMode * option error);
  fs_BackupFile : string -> M D (string * option error);
  fs_GetDiskUsage : string -> M D (N * N * N * option error);
  fs_GetDiskUsageHuman : string -> M D (string * option error);
  fs_CountFiles : string -> M D (Z * option error);
  fs_ListDirectory : string -> M D (list string * option error);
  fs_GetFileSize : string -> M D (Z * option error);
  fs_IsMount : string -> M D (bool * option error)
}.
Arguments fs_EnsureDirectory {D}.
Arguments fs_Chown {D}.
Arguments fs_ChownRecursive {D}.
Arguments fs_Chmod {D}.
Arguments fs_ChmodRecursive {D}.
Arguments fs_WriteFile {D}.
Arguments fs_RemoveDirectory {D}.
Arguments fs_RemoveFile {D}.
Arguments fs_CopyFile {D}.
Arguments fs_CreateSymlink {D}.
Arguments fs_FileExists {D}.
Arguments fs_DirectoryExists {D}.
Arguments fs_GetOwner {D}.
Arguments fs_GetPermissions {D}.
Arguments fs_BackupFile {D}.
Arguments fs_GetDiskUsage {D}.
Arguments fs_GetDiskUsageHuman {D}.
Arguments fs_CountFiles {D}.
Arguments fs_ListDirectory {D}.
Arguments fs_GetFileSize {D}.
Arguments fs_IsMount {D}.

(** [DryRunFileSystem]; its [ui] field is the output log of [Sys]. *)
Record DryRunFileSystem (D : Type) := mkDryRunFileSystem {
  fs : FileSystem D;
  dryRun : bool
}.
Arguments mkDryRunFileSystem {D}.
Arguments fs {D}.
Arguments dryRun {D}.

Definition NewDryRunFileSystem {D} (fs : FileSystem D) (dryRun : bool)
  : DryRunFileSystem D := mkDryRunFileSystem fs dryRun.

(** The disk behind the wrapped file system and the terminal. *)
Record Sys (D : Type) := mkSys {
  disk : D;
  out : list UIMsg
}.
Arguments mkSys {D}.
Arguments disk {D}.
Arguments out {D}.

Section Methods.
Context {D : Type}.

(** A call of a method of [d.fs]. *)
Definition onDisk {A} (m : M D A) : M (Sys D) A := fun s =>
  let (a, k) := m (disk s) in (a, mkSys k (out s)).

Definition Infof (format : string) (args : list FmtArg) : M (Sys D) unit :=
  fun s => (tt, mkSys (disk s) (out s ++ [UIInfof format args])).

Definition Warningf (format : string) (args : list FmtArg) : M (Sys D) unit :=
  fun s => (tt, mkSys (disk s) (out s ++ [UIWarningf format args])).

Definition EnsureDirectory (d : DryRunFileSystem D)
    (path owner : string) (perms : FileMode) : M (Sys D) (option error) :=
  if dryRun d then
    Infof "[DRY-RUN] Would create directory: %s (owner: %s, perms: %o)"
      [ArgString path; ArgString owner; ArgOctal perms] ;;;
    ret None
  else onDisk (fs_EnsureDirectory (fs d) path owner perms).

Definition Chown (d : DryRunFileSystem D) (path owner : string)
  : M (Sys D) (option error) :=
  if dryRun d then
    Infof "[DRY-RUN] Would change ownership of %s to %s"
      [ArgString path; ArgString owner] ;;;
    ret None
  else onDisk (fs_Chown (fs d) path owner).

Definition ChownRecursive (d : DryRunFileSystem D) (path owner : string)
  : M (Sys D) (option error) :=
  if dryRun d then
    Infof "[DRY-RUN] Would recursively change ownership of %s to %s"
      [ArgString path; ArgString owner] ;;;
    ret None
  else onDisk (fs_ChownRecursive (fs d) path owner).

Definition Chmod (d : DryRunFileSystem D) (path : string) (perms : FileMode)
  : M (Sys D) (option error) :=
  if dryRun d then
    Infof "[DRY-RUN] Would change permissions of %s to %o"
      [ArgString path; ArgOctal perms] ;;;
    ret None
  else onDisk (fs_Chmod (fs d) path perms).

Definition ChmodRecursive (d : DryRunFileSystem D) (path : string)
    (perms : FileMode) : M (Sys D) (option error) :=
  if dryRun d then
    Infof "[DRY-RUN] Would recursively change permissions of %s to %o"
      [ArgString path; ArgOctal perms] ;;;
    ret None
  else onDisk (fs_ChmodRecursive (fs d) path perms).

Definition WriteFile (d : DryRunFileSystem D) (path : string)
    (content : list Byte.byte) (perms : FileMode) : M (Sys D) (option error) :=
  if dryRun d then
    Infof "[DRY-RUN] Would write %d bytes to %s (perms: %o)"
      [ArgDecimal (Z.of_nat (length content)); ArgString path; ArgOctal perms] ;;;
    ret None
  else onDisk (fs_WriteFile (fs d) path content perms).

Definition RemoveDirectory (d : DryRunFileSystem D) (path : string)
  : M (Sys D) (option error) :=
  if dryRun d then
    Warningf "[DRY-RUN] Would remove directory: %s" [ArgString path] ;;;
    ret None
  else onDisk (fs_RemoveDirectory (fs d) path).

Definition RemoveFile (d : DryRunFileSystem D) (path : string)
  : M (Sys D) (option error) :=
  if dryRun d then
    Warningf "[DRY-RUN] Would remove file: %s" [ArgString path] ;;;
    ret None
  else onDisk (fs_RemoveFile (fs d) path).

Definition CopyFile (d : DryRunFileSystem D) (src dst : string)
  : M (Sys D) (option error) :=
  if dryRun d then
    Infof "[DRY-RUN] Would copy %s to %s" [ArgString src; ArgString dst] ;;;
    ret None
  else onDisk (fs_CopyFile (fs d) src dst).

Definition CreateSymlink (d : DryRunFileSystem D) (target linkPath : string)
  : M (Sys D) (option error) :=
  if dryRun d then
    Infof "[DRY-RUN] Would create symlink: %s -> %s"
      [ArgString linkPath; ArgString target] ;;;
    ret None
  else onDisk (fs_CreateSymlink (fs d) target linkPath).

Definition FileExists (d : DryRunFileSystem D) (path : string) :=
  onDisk (fs_FileExists (fs d) path).

Definition DirectoryExists (d : DryRunFileSystem D) (path : string) :=
  onDisk (fs_DirectoryExists (fs d) path).

Definition GetOwner (d : DryRunFileSystem D) (path : string) :=
  onDisk (fs_GetOwner (fs d) path).

Definition GetPermissions (d : DryRunFileSystem D) (path : string) :=
  onDisk (fs_GetPermissions (fs d) path).

Definition BackupFile (d : DryRunFileSystem D) (path : string)
  : M (Sys D) (string * option error) :=
  if dryRun d then
    Infof "[DRY-RUN] Would create backup of: %s" [ArgString path] ;;;
    ret (path ++ ".backup.DRYRUN", None)
  else onDisk (fs_BackupFile (fs d) path).

Definition GetDiskUsage (d : DryRunFileSystem D) (path : string) :=
  onDisk (fs_GetDiskUsage (fs d) path).

Definition GetDiskUsageHuman (d : DryRunFileSystem D) (path : string) :=
  onDisk (fs_GetDiskUsageHuman (fs d) path).

Definition CountFiles (d : DryRunFileSystem D) (path : string) :=
  onDisk (fs_CountFiles (fs d) path).

Definition ListDirectory (d : DryRunFileSystem D) (path : string) :=
  onDisk (fs_ListDirectory (fs d) path).

Definition GetFileSize (d : DryRunFileSystem D) (path : string) :=
  onDisk (fs_GetFileSize (fs d) path).

Definition IsMount (d : DryRunFileSystem D) (path : string) :=
  onDisk (fs_IsMount (fs d) path).

(** A call of one of the ten mutating methods, or of [BackupFile], with
    its arguments. *)
Inductive Mutation :=
| CallEnsureDirectory (path owner : string) (perms : FileMode)
| CallChown (path owner : string)
| CallChownRecursive (path owner : string)
| CallChmod (path : string) (perms : FileMode)
| CallChmodRecursive (path : string) (perms : FileMode)
| CallWriteFile (path : string) (content : list Byte.byte) (perms : FileMode)
| CallRemoveDirectory (path : string)
| CallRemoveFile (path : string)
| CallCopyFile (src dst : string)
| CallCreateSymlink (target linkPath : string)
| CallBackupFile (path : string).

Definition perform (d : DryRunFileSystem D) (call : Mutation)
  : M (Sys D) (option error) :=
  match call with
  | CallEnsureDirectory path owner perms => EnsureDirectory d path owner perms
  | CallChown path owner => Chown d path owner
  | CallChownRecursive path owner => ChownRecursive d path owner
  | CallChmod path perms => Chmod d path perms
  | CallChmodRecursive path perms => ChmodRecursive d path perms
  | CallWriteFile path content perms => WriteFile d path content perms
  | CallRemoveDirectory path => RemoveDirectory d path
  | CallRemoveFile path => RemoveFile d path
  | CallCopyFile src dst => CopyFile d src dst
  | CallCreateSymlink target linkPath => CreateSymlink d target linkPath
  | CallBackupFile path => r <- BackupFile d path ;; ret r.2
  end.

(** A client that issues the calls one after the other and collects
    the results. *)
Fixpoint performAll (d : DryRunFileSystem D) (calls : list Mutation)
  : M (Sys D) (list (option error)) :=
  match calls with
  | [] => ret []
  | call :: rest =>
      r <- perform d call ;;
      rs <- performAll d rest ;;
      ret (r :: rs)
  end.

(** A call of one of the ten query methods, and what it returns. *)
Inductive Query :=
| AskFileExists (path : string)
| AskDirectoryExists (path : string)
| AskGetOwner (path : string)
| AskGetPermissions (path : string)
| AskGetDiskUsage (path : string)
| AskGetDiskUsageHuman (path : string)
| AskCountFiles (path : string)
| AskListDirectory (path : string)
| AskGetFileSize (path : string)
| AskIsMount (path : string).

Inductive Answer :=
| AnsBool (b : bool) (err : option error)
| AnsString (s : string) (err : option error)
| AnsMode (m : FileMode) (err : option error)
| AnsUsage (total used free : N) (err : option error)
| AnsInt (n : Z) (err : option error)
| AnsList (l : list string) (err : option error).

Definition usageAnswer (r : N * N * N * option error) : Answer :=
  let '(total, used, free, err) := r in AnsUsage total used free err.

Definition ask (d : DryRunFileSystem D) (q : Query) : M (Sys D) Answer :=
  match q with
  | AskFileExists path => r <- FileExists d path ;; ret (AnsBool r.1 r.2)
  | AskDirectoryExists path =>
      r <- DirectoryExists d path ;; ret (AnsBool r.1 r.2)
  | AskGetOwner path => r <- GetOwner d path ;; ret (AnsString r.1 r.2)
  | AskGetPermissions path =>
      r <- GetPermissions d path ;; ret (AnsMode r.1 r.2)
  | AskGetDiskUsage path => r <- GetDiskUsage d path ;; ret (usageAnswer r)
  | AskGetDiskUsageHuman path =>
      r <- GetDiskUsageHuman d path ;; ret (AnsString r.1 r.2)
  | AskCountFiles path => r <- CountFiles d path ;; ret (AnsInt r.1 r.2)
  | AskListDirectory path => r <- ListDirectory d path ;; ret (AnsList r.1 r.2)
  | AskGetFileSize path => r <- GetFileSize d path ;; ret (AnsInt r.1 r.2)
  | AskIsMount path => r <- IsMount d path ;; ret (AnsBool r.1 r.2)
  end.

(** The same query put to the wrapped file system directly. *)
Definition askWrapped (f : FileSystem D) (q : Query) : M D Answer :=
  match q with
  | AskFileExists path => r <- fs_FileExists f path ;; ret (AnsBool r.1 r.2)
  | AskDirectoryExists path =>
      r <- fs_DirectoryExists f path ;; ret (AnsBool r.1 r.2)
  | AskGetOwner path => r <- fs_GetOwner f path ;; ret (AnsString r.1 r.2)
  | AskGetPermissions path =>
      r <- fs_GetPermissions f path ;; ret (AnsMode r.1 r.2)
  | AskGetDiskUsage path => r <- fs_GetDiskUsage f path ;; ret (usageAnswer r)
  | AskGetDiskUsageHuman path =>
      r <- fs_GetDiskUsageHuman f path ;; ret (AnsString r.1 r.2)
  | AskCountFiles path => r <- fs_CountFiles f path ;; ret (AnsInt r.1 r.2)
  | AskListDirectory path =>
      r <- fs_ListDirectory f path ;; ret (AnsList r.1 r.2)
  | AskGetFileSize path => r <- fs_GetFileSize f path ;; ret (AnsInt r.1 r.2)
  | AskIsMount path => r <- fs_IsMount f path ;; ret (AnsBool r.1 r.2)
  end.

End Methods.
End DryRun.

(** ** internal/config/keys.go *)
Module Config.

Definition KeyHomelabUser := "HOMELAB_USER".
Definition KeyHomelabUID := "HOMELAB_UID".
Definition KeyHomelabGID := "HOMELAB_GID".
Definition KeyHomelabTimezone := "HOMELAB_TIMEZONE".
Definition KeyHomelabBaseDir := "HOMELAB_BASE_DIR".
Definition KeyContainersBase := "CONTAINERS_BASE".
Definition KeyNFSServer := "NFS_SERVER".
Definition KeyNFSExport := "NFS_EXPORT".
Definition KeyNFSMountPoint := "NFS_MOUNT_POINT".
Definition KeyNFSFstabPath := "NFS_FSTAB_PATH".
Definition KeyWGInterface := "WG_INTERFACE".
Definition KeyWGInterfaceIP := "WG_INTERFACE_IP".
Definition KeyWGListenPort := "WG_LISTEN_PORT".
Definition KeyWGConfigPath := "WG_CONFIG_PATH".
Definition KeyContainerRuntime := "CONTAINER_RUNTIME".
Definition KeySelectedServices := "SELECTED_SERVICES".
Definition KeyComposeProjectName := "COMPOSE_PROJECT_NAME".
Definition KeyNetworkTestRetries := "NETWORK_TEST_RETRIES".
Definition KeyNetworkTestTimeout := "NETWORK_TEST_TIMEOUT".
Definition KeyConfigVersion := "CONFIG_VERSION".

Definition Defaults : gmap string string :=
  list_to_map
    [ (KeyHomelabBaseDir, "/srv/containers");
      (KeyContainerRuntime, "podman");
      (KeyNFSMountPoint, "/mnt/nas");
      (KeyNFSFstabPath, "/etc/fstab");
      (KeyNetworkTestRetries, "5");
      (KeyNetworkTestTimeout, "10");
      (KeyConfigVersion, "1");
      (KeyWGInterface, "wg0");
      (KeyWGListenPort, "51820") ].

(** The in-memory part of the configuration store: stored entries. *)
Record Config := mkConfig {
  data : gmap string string
}.

(** Modelled from the spec: [Config.GetOrDefault], whose file
    (internal/config/config.go) is not among the sources.  "Resolution
    order is stored value, then a static built-in defaults table, then
    the caller's fallback.  Never fails." *)
Definition GetOrDefault (c : Config) (key fallback : string) : string :=
  match data c !! key with
  | Some value => value
  | None =>
      match Defaults !! key with
      | Some defaultValue => defaultValue
      | None => fallback
      end
  end.

End Config.

(** ** internal/config/markers.go: operations on the whole directory *)
Module MarkersDir.

(** What the environment makes of the system calls on [m.dir] itself:
    an errno when [os.Stat(m.dir)] or [os.ReadDir(m.dir)] fails for an
    outside reason, and for a failing [os.RemoveAll(m.dir)] the errno
    together with the files it could not remove.  These calls are not
    entered in the log of calls on marker files. *)
Record DirEnv := mkDirEnv {
  statDir : option Errno;
  readDir : option Errno;
  removeAll : option (Errno * gset string)
}.

(** An [os.DirEntry], as far as [List] looks at it. *)
Record DirEntry := mkDirEntry {
  entryName : string;
  IsDir : bool
}.

(** [os.IsNotExist(err)] on a possibly [nil] error. *)
Definition isNotExist (err : option error) : bool :=
  match err with
  | Some e => os_IsNotExist e
  | None => false
  end.

(** [os.Stat(m.dir)] *)
Definition os_Stat_dir (env : DirEnv) : M FS (option error) := fun s =>
  match statDir env with
  | Some e => (Some (PathError "stat" "." e), s)
  | None =>
      match tree s with
      | Some _ => (None, s)
      | None => (Some (PathError "stat" "." ENOENT), s)
      end
  end.

(** [os.ReadDir(m.dir)]: the entries sorted by file name.  The marker
    directory holds plain files only. *)
Definition os_ReadDir (env : DirEnv) : M FS (list DirEntry * option error) :=
  fun s =>
    match readDir env with
    | Some e => (([], Some (PathError "open" "." e)), s)
    | None =>
        match tree s with
        | Some t =>
            (((fun n => mkDirEntry n false) <$>
                merge_sort String.le (elements t), None), s)
        | None => (([], Some (PathError "open" "." ENOENT)), s)
        end
    end.

(** [os.RemoveAll(m.dir)]: removes the directory and what it holds; a
    missing directory is not an error. *)
Definition os_RemoveAll (env : DirEnv) : M FS (option error) := fun s =>
  match removeAll env with
  | Some (e, kept) =>
      (Some (PathError "unlinkat" "." e),
       mkFS (match tree s with
             | Some t => Some (t ∩ kept)
             | None => None
             end) (fault s) (calls s))
  | None => (None, mkFS None (fault s) (calls s))
  end.

Definition RemoveAll (env : DirEnv) : M FS (option error) :=
  err <- os_Stat_dir env ;;
  if isNotExist err then ret None
  else os_RemoveAll env.

(** The [for _, entry := range entries] loop of [List]. *)
Fixpoint collect (markers : list string) (entries : list DirEntry)
  : list string :=
  match entries with
  | [] => markers
  | entry :: rest =>
      if negb (IsDir entry) then collect (markers ++ [entryName entry])%list rest
      else collect markers rest
  end.

Definition List (env : DirEnv) : M FS (list string * option error) :=
  err <- os_Stat_dir env ;;
  if isNotExist err then ret ([], None)
  else
    r <- os_ReadDir env ;;
    let '(entries, err) := r in
    match err with
    | Some err =>
        ret ([], Some (wrapError "failed to read marker directory: " err))
    | None => ret (collect [] entries, None)
    end.

End MarkersDir.

(** ** package system: [SudoChecker] *)
Module Sudo.

(** What [cmd.Run()] returns: [nil], an [*exec.ExitError] with its exit
    code, or another error (the command could not be started). *)
Inductive RunResult :=
| RunOk
| RunExit (code : Z) (err : error)
| RunFailed (err : error).

(** The [error] value of a [RunResult]. *)
Definition runError (r : RunResult) : option error :=
  match r with
  | RunOk => None
  | RunExit _ err => Some err
  | RunFailed err => Some err
  end.

(** Package [os/exec] on a machine with state [H]:
    [exec.Command(name, args...).Run()] and [.Output()]. *)
Record Exec (H : Type) := mkExec {
  Run : string -> list string -> M H RunResult;
  Output : string -> list string -> M H (string * RunResult)
}.
Arguments Run {H}.
Arguments Output {H}.

Section Checker.
Context {H : Type} (exec : Exec H).

Definition RequiresPassword : M H (bool * option error) :=
  r <- Run exec "sudo" ["-n"; "-v"] ;;
  match r with
  | RunOk => ret (false, None)
  | RunExit code _ => ret (Z.eqb code 1, None)
  | RunFailed err =>
      ret (false, Some (wrapError "failed to check sudo status: " err))
  end.

Definition ValidateAccess : M H (option error) :=
  r <- RequiresPassword ;;
  let '(requiresPwd, err) := r in
  match err with
  | Some err => ret (Some (wrapError "failed to check sudo access: " err))
  | None =>
      if negb requiresPwd then ret None
      else
        r <- Run exec "sudo" ["true"] ;;
        match runError r with
        | Some err => ret (Some (wrapError "sudo authentication failed: " err))
        | None => ret None
        end
  end.

Definition GetSudoConfig : M H (option (gmap string string) * option error) :=
  let info : gmap string string := ∅ in
  r <- RequiresPassword ;;
  let '(requiresPwd, err) := r in
  match err with
  | Some err => ret (None, Some err)
  | None =>
      let info :=
        if requiresPwd then
          <["recommendation" := "Configure passwordless sudo for automation"]>
            (<["requires_password" := "yes"]> info)
        else
          <["recommendation" :=
              "Sudo already configured for passwordless access"]>
            (<["requires_password" := "no"]> info) in
      r <- Output exec "groups" [] ;;
      let '(output, res) := r in
      match runError res with
      | None => ret (Some (<["groups" := output]> info), None)
      | Some _ => ret (Some info, None)
      end
  end.

End Checker.
End Sudo.

(** ** package system: systemd unit files *)
Module Systemd.

Section Locations.
(** [filepath.Join] and, for the file system as it is during the call,
    the error of [os.Stat] on a path. *)
Context (Join : string -> string -> string) (Stat : string -> option error).

Definition locations (serviceName : string) : list string :=
  [ Join "/etc/systemd/system" serviceName;
    Join "/usr/lib/systemd/system" serviceName;
    Join "/lib/systemd/system" serviceName ].

(** The loop of [ServiceExists]. *)
Fixpoint existsAt (ls : list string) : bool * option error :=
  match ls with
  | [] => (false, None)
  | location :: rest =>
      match Stat location with
      | None => (true, None)
      | Some err =>
          if negb (os_IsNotExist err) then
            (false,
             Some (wrapError ("error checking service at " ++ location ++ ": ")
                     err))
          else existsAt rest
      end
  end.

Definition ServiceExists (serviceName : string) : bool * option error :=
  existsAt (locations serviceName).

(** The loop of [GetServiceLocation]. *)
Fixpoint locate (ls : list string) : option string :=
  match ls with
  | [] => None
  | location :: rest =>
      match Stat location with
      | None => Some location
      | Some _ => locate rest
      end
  end.

Definition GetServiceLocation (serviceName : string) : string * option error :=
  match locate (locations serviceName) with
  | Some location => (location, None)
  | None => ("", Some (errorString ("service " ++ serviceName ++ " not found")))
  end.

End Locations.
End Systemd.

(** * Properties *)

Set Warnings "-clear-no-such-hyp".

(** ** Vocabulary of the statements *)

(** The marker file [name] is in the marker directory. *)
Definition present (name : string) (s : FS) : Prop := name ∈ entries s.

(** No system call fails for a reason outside the directory's content. *)
Definition io_ok (s : FS) : Prop := forall c, fault s c = None.

(** The byte [ch] occurs in [name]. *)
Definition mentions (ch : ascii) (name : string) : Prop :=
  In ch (list_ascii_of_string name).

(** Every file of the marker directory has a name the marker store
    accepts: the states reached through the store's own operations. *)
Definition well_formed (s : FS) : Prop :=
  forall name, present name s -> Markers.validateMarkerName name = None.

(** The world in which [RunStep] starts the step body: the header line
    has been printed. *)
Definition announce {Host} (shortName : string) (w : Cli.World Host)
  : Cli.World Host :=
  snd (Cli.say (UIHeader ("Running: " ++ shortName)) w).

(** The order in which [RunAll] is to run the steps. *)
Definition pipeline (skipWireGuard : bool) : list string :=
  if skipWireGuard
  then ["preflight"; "user"; "directory"; "nfs"; "container"; "deployment"]
  else ["preflight"; "user"; "directory"; "wireguard"; "nfs"; "container";
        "deployment"].

(** [succession c steps w w']: running [RunStep] on each of [steps] in
    turn, starting in [w], succeeds every time and ends in [w']. *)
Inductive succession {Host} (c : Cli.Collaborators Host)
  : list string -> Cli.World Host -> Cli.World Host -> Prop :=
| succession_nil w : succession c [] w w
| succession_cons step rest w w1 w2 :
    Cli.RunStep c step w = (None, w1) ->
    succession c rest w1 w2 ->
    succession c (step :: rest) w w2.

(** ** Concrete directories, worlds and collaborators *)

Definition no_faults : Syscall -> option Errno := fun _ => None.

(** A marker directory holding exactly the files [names]. *)
Definition dir_with (names : list string) : FS :=
  mkFS (Some (list_to_set names)) no_faults [].

(** A marker directory on a full disk: creating a file fails. *)
Definition create_fails : Syscall -> option Errno := fun c =>
  match c with
  | SysCreate _ => Some ENOSPC
  | _ => None
  end.

Definition full_disk : FS := mkFS (Some ∅) create_fails [].

(** Step implementations that do nothing and succeed; the prompt
    returns its default answer. *)
Definition quiet : Cli.Collaborators unit :=
  Cli.mkCollaborators unit
    (fun _ default => ret (default, None))
    (ret None) (ret None) (ret None) (ret None) (ret None) (ret None)
    (ret None).

(** As [quiet], but the NFS step fails. *)
Definition nfs_unreachable : Cli.Collaborators unit :=
  Cli.mkCollaborators unit
    (fun _ default => ret (default, None))
    (ret None) (ret None) (ret None) (ret None)
    (ret (Some (errorString "NFS server is not reachable")))
    (ret None) (ret None).

Definition nfs_info : Cli.StepInfo :=
  Cli.mkStepInfo "NFS Setup" "nfs" "Configure network storage"
    "nfs-setup-complete" false.

(** A wrapped file system over a disk that counts the calls it
    receives: every method, queries included, increments the counter. *)
Definition counting : DryRun.FileSystem nat :=
  DryRun.mkFileSystem nat
    (fun _ _ _ n => (None, S n)) (fun _ _ n => (None, S n))
    (fun _ _ n => (None, S n)) (fun _ _ n => (None, S n))
    (fun _ _ n => (None, S n)) (fun _ _ _ n => (None, S n))
    (fun _ n => (None, S n)) (fun _ n => (None, S n))
    (fun _ _ n => (None, S n)) (fun _ _ n => (None, S n))
    (fun _ n => ((true, None), S n)) (fun _ n => ((true, None), S n))
    (fun _ n => (("core", None), S n)) (fun _ n => ((493%N, None), S n))
    (fun p n => ((p ++ ".backup", None), S n))
    (fun _ n => ((100%N, 40%N, 60%N, None), S n))
    (fun _ n => (("40%", None), S n)) (fun _ n => ((Z.of_nat n, None), S n))
    (fun _ n => (([], None), S n)) (fun _ n => ((0%Z, None), S n))
    (fun _ n => ((false, None), S n)).

(** The world of the scenario of the specification: step ["nfs"] has a
    failure marker from a prior run. *)
Definition nfs_failed_before : Cli.World unit :=
  Cli.mkWorld (dir_with ["nfs-setup-complete-failed"]) [] tt.

(** The world in which the step body of ["nfs"] returns when started in
    [nfs_failed_before]: the header is printed and [IsStepComplete] has
    looked for the completion marker. *)
Definition nfs_body_done : Cli.World unit :=
  Cli.mkWorld
    (mkFS (Some (list_to_set ["nfs-setup-complete-failed"])) no_faults
       [SysStat "nfs-setup-complete"])
    [UIHeader "Running: nfs"] tt.

(** A machine on which nothing has been set up yet. *)
Definition untouched : Cli.World unit := Cli.mkWorld (mkFS None no_faults []) [] tt.

Definition on_full_disk : Cli.World unit := Cli.mkWorld full_disk [] tt.

Definition on_full_disk_body_done : Cli.World unit :=
  Cli.mkWorld (mkFS (Some ∅) create_fails [SysStat "nfs-setup-complete"])
    [UIHeader "Running: nfs"] tt.

(** A client that calls [CreateIfNotExists] on the same name [n] times
    in a row and collects the results. *)
Fixpoint createRepeatedly (n : nat) (name : string)
  : M FS (list (bool * option error)) :=
  match n with
  | O => ret []
  | S n' =>
      r <- Markers.CreateIfNotExists name ;;
      rs <- createRepeatedly n' name ;;
      ret (r :: rs)
  end.

(** The world after a step runner has looked for the completion marker
    [markerName] with [IsStepComplete]. *)
Definition checked {Host} (markerName : string) (w : Cli.World Host)
  : Cli.World Host :=
  Cli.mkWorld (issue (SysStat markerName) (Cli.markers w)) (Cli.ui w)
    (Cli.host w).

(** The world in which a step runner asks "Run again?": the marker has
    been found and the message [info] printed. *)
Definition informed {Host} (markerName info : string) (w : Cli.World Host)
  : Cli.World Host :=
  Cli.mkWorld (issue (SysStat markerName) (Cli.markers w))
    (Cli.ui w ++ [UIInfo info]) (Cli.host w).

(** The collaborators [c] with another WireGuard step implementation. *)
Definition withWireGuard {Host} (c : Cli.Collaborators Host)
    (run : M (Cli.World Host) (option error)) : Cli.Collaborators Host :=
  Cli.mkCollaborators Host (Cli.PromptYesNo c)
    (Cli.PreflightChecker_RunAll c) (Cli.UserConfigurator_Run c)
    (Cli.DirectorySetup_Run c) run (Cli.NFSConfigurator_Run c)
    (Cli.ContainerSetup_Run c) (Cli.Deployment_Run c).

(** As [quiet], but the prompt is answered with yes and every step
    implementation adds a line to the output. *)
Definition eager : Cli.Collaborators unit :=
  Cli.mkCollaborators unit
    (fun _ _ => ret (true, None))
    (Cli.say (UIInfo "preflight ran") ;;; ret None)
    (Cli.say (UIInfo "user ran") ;;; ret None)
    (Cli.say (UIInfo "directory ran") ;;; ret None)
    (Cli.say (UIInfo "wireguard ran") ;;; ret None)
    (Cli.say (UIInfo "nfs ran") ;;; ret None)
    (Cli.say (UIInfo "container ran") ;;; ret None)
    (Cli.say (UIInfo "deployment ran") ;;; ret None).

(** An output line of the dry-run gateway: an [Infof] or [Warningf]
    whose format starts with the dry-run tag. *)
Definition dry_run_line (msg : UIMsg) : Prop :=
  match msg with
  | UIInfof format _ | UIWarningf format _ =>
      String.prefix "[DRY-RUN] Would " format = true
  | _ => False
  end.

(** A machine on which [sudo -n -v] exits with status 2 and nothing
    else can be run. *)
Definition sudo_misconfigured : Sudo.Exec nat :=
  Sudo.mkExec nat
    (fun name args n =>
       if (name =? "sudo") && bool_decide (args = ["-n"; "-v"])
       then (Sudo.RunExit 2 (errorString "exit status 2"), S n)
       else (Sudo.RunFailed (errorString "executable file not found"), S n))
    (fun name args n =>
       (("", Sudo.RunFailed (errorString "executable file not found")), S n)).

(** The marker directory does not exist yet. *)
Definition no_directory : FS := mkFS None no_faults [].

(** No failure of the system calls on the directory itself. *)
Definition dir_ok : MarkersDir.DirEnv := MarkersDir.mkDirEnv None None None.

(** The NFS step has completed once and failed later. *)
Definition nfs_completed_then_failed : Cli.World unit :=
  Cli.mkWorld (dir_with ["nfs-setup-complete"; "nfs-setup-complete-failed"])
    [] tt.

(** The NFS step has completed. *)
Definition nfs_completed : Cli.World unit :=
  Cli.mkWorld (dir_with ["nfs-setup-complete"]) [] tt.

(** ** Strings *)

Lemma prefix_single ch s :
  String.prefix (String ch "") s = true <-> exists rest, s = String ch rest.
Proof.
  destruct s as [|b rest]; simpl.
  - split; [discriminate | intros [r Hr]; discriminate].
  - destruct (ascii_dec ch b) as [->|Hne].
    + destruct rest; simpl; split; eauto.
    + split; [discriminate | intros [r Hr]; congruence].
Qed.

Lemma Contains_single ch s :
  strings_Contains s (String ch "") = true <-> mentions ch s.
Proof.
  unfold mentions. induction s as [|b rest IH].
  - simpl. split; [discriminate | tauto].
  - cbn [strings_Contains list_ascii_of_string In].
    destruct (String.prefix (String ch "") (String b rest)) eqn:Hp.
    + apply prefix_single in Hp as [r Hr]. injection Hr as -> ->.
      split; auto.
    + rewrite IH. split; [tauto|].
      intros [->|H]; [|exact H].
      assert (String.prefix (String ch "") (String ch rest) = true) as Ht
        by (apply prefix_single; eauto).
      congruence.
Qed.

Lemma mentions_app ch a b :
  mentions ch (a ++ b) <-> mentions ch a \/ mentions ch b.
Proof.
  unfold mentions. induction a as [|c a IH]; simpl.
  - tauto.
  - rewrite IH. tauto.
Qed.

Lemma Contains_single_false ch s :
  strings_Contains s (String ch "") = false <-> ~ mentions ch s.
Proof.
  rewrite <- Contains_single. destruct (strings_Contains _ _); split;
    congruence.
Qed.

Lemma app_failed_not_empty name : name ++ "-failed" <> "".
Proof. destruct name; discriminate. Qed.

Lemma app_failed_not_dot name : name ++ "-failed" <> ".".
Proof. destruct name as [|c [|c' r]]; simpl; try discriminate. Qed.

Lemma app_failed_not_dotdot name : name ++ "-failed" <> "..".
Proof.
  destruct name as [|c [|c' [|c'' r]]]; simpl; try discriminate.
Qed.

Lemma length_app_string a b :
  String.length (a ++ b) = String.length a + String.length b.
Proof. induction a as [|c a IH]; simpl; [reflexivity | now rewrite IH]. Qed.

Lemma app_failed_neq name : name ++ "-failed" <> name.
Proof.
  intros H. apply (f_equal String.length) in H.
  rewrite length_app_string in H. simpl in H. lia.
Qed.

(** ** Name validation *)

Lemma validate_None name :
  Markers.validateMarkerName name = None <->
  name <> "" /\ ~ mentions "/" name /\ ~ mentions "\" name /\
  name <> "." /\ name <> "..".
Proof.
  unfold Markers.validateMarkerName.
  destruct (String.eqb_spec name "") as [->|Hne].
  { split; [discriminate | tauto]. }
  destruct (strings_Contains name "/") eqn:Hs.
  { apply Contains_single in Hs. simpl. split; [discriminate | tauto]. }
  destruct (strings_Contains name "\") eqn:Hb.
  { apply Contains_single in Hb. simpl. split; [discriminate | tauto]. }
  apply Contains_single_false in Hs, Hb. simpl.
  destruct (String.eqb_spec name "..") as [->|Hdd].
  { simpl. split; [discriminate | tauto]. }
  destruct (String.eqb_spec name ".") as [->|Hd].
  { simpl. split; [discriminate | tauto]. }
  simpl. tauto.
Qed.

Lemma validate_failed name :
  Markers.validateMarkerName (name ++ "-failed") = None <->
  ~ mentions "/" name /\ ~ mentions "\" name.
Proof.
  rewrite validate_None, !mentions_app.
  pose proof (app_failed_not_empty name).
  pose proof (app_failed_not_dot name).
  pose proof (app_failed_not_dotdot name).
  assert (~ mentions "/" "-failed") by (unfold mentions; simpl; intuition discriminate).
  assert (~ mentions "\" "-failed") by (unfold mentions; simpl; intuition discriminate).
  tauto.
Qed.

Lemma valid_failed name :
  Markers.validateMarkerName name = None ->
  Markers.validateMarkerName (name ++ "-failed") = None.
Proof. rewrite validate_None, validate_failed. tauto. Qed.

(** ** The marker store on a directory without I/O failures *)

Lemma Exists_run name s :
  Markers.validateMarkerName name = None ->
  fault s (SysStat name) = None ->
  Markers.Exists name s =
    ((bool_decide (name ∈ entries s), None), issue (SysStat name) s).
Proof.
  intros Hv Hf. unfold Markers.Exists. rewrite Hv.
  unfold bind, os_Stat. cbn [fault issue]. rewrite Hf.
  change (entries (issue (SysStat name) s)) with (entries s).
  destruct (bool_decide (name ∈ entries s)); reflexivity.
Qed.

Lemma Create_run name s :
  Markers.validateMarkerName name = None ->
  fault s SysMkdirAll = None ->
  fault s (SysCreate name) = None ->
  Markers.Create name s =
    (None, mkFS (Some ({[name]} ∪ entries s)) (fault s)
             (calls s ++ [SysMkdirAll; SysCreate name])).
Proof.
  intros Hv Hm Hc. unfold Markers.Create. rewrite Hv.
  unfold bind, os_MkdirAll, os_Create. cbn [fault issue]. rewrite Hm.
  cbn [fault issue set_tree tree calls]. rewrite Hc.
  unfold ret, set_tree, issue. cbn [tree fault calls].
  rewrite <- app_assoc. reflexivity.
Qed.

Lemma CreateIfNotExists_run name s :
  Markers.validateMarkerName name = None ->
  fault s SysMkdirAll = None ->
  fault s (SysOpenExcl name) = None ->
  Markers.CreateIfNotExists name s =
    ((negb (bool_decide (name ∈ entries s)), None),
     mkFS (Some (if bool_decide (name ∈ entries s) then entries s
                 else {[name]} ∪ entries s))
       (fault s) (calls s ++ [SysMkdirAll; SysOpenExcl name])).
Proof.
  intros Hv Hm Hc. unfold Markers.CreateIfNotExists. rewrite Hv.
  unfold bind, os_MkdirAll, os_OpenFile_excl. cbn [fault issue]. rewrite Hm.
  cbn [fault issue set_tree tree calls]. rewrite Hc.
  change (entries (issue SysMkdirAll s)) with (entries s).
  destruct (bool_decide (name ∈ entries s)); unfold ret, set_tree, issue;
    cbn [tree fault calls negb]; rewrite <- app_assoc; reflexivity.
Qed.

Lemma Remove_run name s :
  Markers.validateMarkerName name = None ->
  fault s (SysRemove name) = None ->
  Markers.Remove name s =
    (None, mkFS (match tree s with
                 | Some t => Some (if bool_decide (name ∈ t) then t ∖ {[name]}
                                   else t)
                 | None => None
                 end) (fault s) (calls s ++ [SysRemove name])).
Proof.
  intros Hv Hf. unfold Markers.Remove. rewrite Hv.
  unfold bind, os_Remove, issue. cbn [fault tree calls]. rewrite Hf.
  destruct (tree s) as [t|].
  - destruct (bool_decide (name ∈ t)); reflexivity.
  - reflexivity.
Qed.

Lemma entries_mkFS t f cs : entries (mkFS (Some t) f cs) = t.
Proof. reflexivity. Qed.

Lemma entries_after_Remove name s :
  entries (mkFS (match tree s with
                 | Some t => Some (if bool_decide (name ∈ t) then t ∖ {[name]}
                                   else t)
                 | None => None
                 end) (fault s) (calls s ++ [SysRemove name]))
  = entries s ∖ {[name]}.
Proof.
  unfold entries. cbn [tree]. destruct (tree s) as [t|].
  - case_bool_decide; set_solver.
  - set_solver.
Qed.

Lemma entries_after_CreateIfNotExists name s f cs :
  entries (mkFS (Some (if bool_decide (name ∈ entries s) then entries s
                       else {[name]} ∪ entries s)) f cs)
  = {[name]} ∪ entries s.
Proof. rewrite entries_mkFS. case_bool_decide; set_solver. Qed.

(** The store's operations keep the directory well formed and leave
    the environment's failures as they are. *)
Lemma well_formed_grow name s s' :
  well_formed s ->
  Markers.validateMarkerName name = None ->
  entries s' ⊆ {[name]} ∪ entries s ->
  well_formed s'.
Proof.
  intros Hwf Hv Hsub n Hn. unfold present in Hn.
  apply Hsub in Hn. apply elem_of_union in Hn as [Hn|Hn].
  - apply elem_of_singleton in Hn as ->. exact Hv.
  - apply Hwf, Hn.
Qed.

Ltac run_store :=
  unfold Markers.Create, Markers.CreateIfNotExists, Markers.Exists,
    Markers.Remove, bind, ret, os_MkdirAll, os_Create, os_OpenFile_excl,
    os_Stat, os_Remove, issue, set_tree, entries;
  cbn [tree fault calls];
  repeat (match goal with
          | |- context [Markers.validateMarkerName ?n] =>
              destruct (Markers.validateMarkerName n)
          | |- context [fault ?s ?c] => is_var s; destruct (fault s c)
          | |- context [tree ?s] => is_var s; destruct (tree s)
          | |- context [bool_decide ?P] => destruct (bool_decide P)
          | e : Errno |- _ => destruct e
          end;
          cbn [fst snd tree fault calls os_IsExist os_IsNotExist]).

Lemma store_entries_bound name s :
  entries (snd (Markers.Create name s)) ⊆ {[name]} ∪ entries s /\
  entries (snd (Markers.CreateIfNotExists name s)) ⊆ {[name]} ∪ entries s /\
  entries (snd (Markers.Exists name s)) ⊆ {[name]} ∪ entries s /\
  entries (snd (Markers.Remove name s)) ⊆ {[name]} ∪ entries s.
Proof.
  repeat split; run_store; set_solver.
Qed.

Lemma store_keeps_well_formed name s :
  well_formed s ->
  well_formed (snd (Markers.Create name s)) /\
  well_formed (snd (Markers.CreateIfNotExists name s)) /\
  well_formed (snd (Markers.Exists name s)) /\
  well_formed (snd (Markers.Remove name s)).
Proof.
  intros Hwf.
  destruct (Markers.validateMarkerName name) as [e|] eqn:Hv.
  - unfold Markers.Create, Markers.CreateIfNotExists, Markers.Exists,
      Markers.Remove. rewrite Hv. cbn. tauto.
  - destruct (store_entries_bound name s) as (H1 & H2 & H3 & H4).
    repeat split; eapply well_formed_grow; eassumption.
Qed.

Lemma store_keeps_faults name s :
  fault (snd (Markers.Create name s)) = fault s /\
  fault (snd (Markers.CreateIfNotExists name s)) = fault s /\
  fault (snd (Markers.Exists name s)) = fault s /\
  fault (snd (Markers.Remove name s)) = fault s.
Proof.
  repeat split; run_store; reflexivity.
Qed.

(** ** Claims about the marker store *)

(** C7: a name that contains ['/'] or ['\'], or that is ["."] or
    [".."], makes each of [Create], [CreateIfNotExists], [Exists] and
    [Remove] return the validation error with the state of the marker
    directory, the log of system calls included, exactly as before: no
    system call is issued. *)
Theorem invalid_name_rejected_before_io (name : string) (s : FS) :
  mentions "/" name \/ mentions "\" name \/ name = "." \/ name = ".." ->
  exists err,
    Markers.validateMarkerName name = Some err /\
    Markers.Create name s = (Some err, s) /\
    Markers.CreateIfNotExists name s = ((false, Some err), s) /\
    Markers.Exists name s = ((false, Some err), s) /\
    Markers.Remove name s = (Some err, s).
Proof.
  intros Hbad.
  destruct (Markers.validateMarkerName name) as [err|] eqn:Hv.
  - exists err. unfold Markers.Create, Markers.CreateIfNotExists,
      Markers.Exists, Markers.Remove. rewrite Hv. repeat split.
  - apply validate_None in Hv. exfalso. tauto.
Qed.

(** C10: the empty name makes each of [Create], [CreateIfNotExists],
    [Exists] and [Remove] return an error with the state of the marker
    directory unchanged and no system call issued. *)
Theorem empty_name_rejected_before_io (s : FS) :
  let err := errorString "marker name cannot be empty" in
  Markers.Create "" s = (Some err, s) /\
  Markers.CreateIfNotExists "" s = ((false, Some err), s) /\
  Markers.Exists "" s = ((false, Some err), s) /\
  Markers.Remove "" s = (Some err, s).
Proof. repeat split. Qed.

(** C1: on a valid name and a directory without I/O failures,
    [CreateIfNotExists] returns [(true, nil)] and adds the marker when it
    was absent, and returns [(false, nil)] with the directory's content
    unchanged when it was present. *)
Theorem CreateIfNotExists_creates_once (name : string) (s : FS) :
  Markers.validateMarkerName name = None ->
  io_ok s ->
  (~ present name s ->
   exists s', Markers.CreateIfNotExists name s = ((true, None), s') /\
              present name s' /\
              entries s' = {[name]} ∪ entries s) /\
  (present name s ->
   exists s', Markers.CreateIfNotExists name s = ((false, None), s') /\
              tree s' = tree s).
Proof.
  intros Hv Hio.
  rewrite (CreateIfNotExists_run name s Hv (Hio _) (Hio _)).
  unfold present. split; intros Hp.
  - rewrite bool_decide_eq_false_2 by exact Hp.
    eexists. split; [reflexivity|]. rewrite entries_mkFS.
    split; [set_solver | reflexivity].
  - rewrite bool_decide_eq_true_2 by exact Hp.
    eexists. split; [reflexivity|]. cbn [tree].
    unfold entries in *. destruct (tree s); [reflexivity | set_solver].
Qed.

(** C3: in a well-formed marker directory without I/O failures,
    [GetStatus] returns [Failed] when both the completion and the failure
    marker exist, [Completed] when only the completion marker exists,
    and [NotStarted] when neither exists. *)
Theorem GetStatus_precedence (name : string) (s : FS) :
  well_formed s ->
  io_ok s ->
  (present name s -> present (name ++ "-failed") s ->
   fst (Markers.GetStatus name s) = (Markers.StepFailed, None)) /\
  (present name s -> ~ present (name ++ "-failed") s ->
   fst (Markers.GetStatus name s) = (Markers.StepCompleted, None)) /\
  (~ present name s -> ~ present (name ++ "-failed") s ->
   fst (fst (Markers.GetStatus name s)) = Markers.StepNotStarted /\
   (Markers.validateMarkerName name = None ->
    fst (Markers.GetStatus name s) = (Markers.StepNotStarted, None))).
Proof.
  intros Hwf Hio. unfold present in *.
  unfold Markers.GetStatus, Markers.IsFailed, bind.
  split; [|split].
  - intros Hc Hf.
    rewrite (Exists_run _ s (Hwf _ Hf) (Hio _)).
    rewrite bool_decide_eq_true_2 by exact Hf. reflexivity.
  - intros Hc Hf. pose proof (Hwf _ Hc) as Hv.
    rewrite (Exists_run _ s (valid_failed _ Hv) (Hio _)).
    rewrite bool_decide_eq_false_2 by exact Hf.
    rewrite (Exists_run name (issue _ s) Hv (Hio _)).
    change (entries (issue _ s)) with (entries s).
    rewrite bool_decide_eq_true_2 by exact Hc. reflexivity.
  - intros Hc Hf. split.
    + destruct (Markers.validateMarkerName (name ++ "-failed")) as [e|] eqn:Hvf.
      * unfold Markers.Exists at 1. rewrite Hvf. reflexivity.
      * rewrite (Exists_run _ s Hvf (Hio _)).
        rewrite bool_decide_eq_false_2 by exact Hf.
        destruct (Markers.validateMarkerName name) as [e|] eqn:Hv.
        -- unfold Markers.Exists. rewrite Hv. reflexivity.
        -- rewrite (Exists_run name (issue _ s) Hv (Hio _)).
           change (entries (issue _ s)) with (entries s).
           rewrite bool_decide_eq_false_2 by exact Hc. reflexivity.
    + intros Hv.
      rewrite (Exists_run _ s (valid_failed _ Hv) (Hio _)).
      rewrite bool_decide_eq_false_2 by exact Hf.
      rewrite (Exists_run name (issue _ s) Hv (Hio _)).
      change (entries (issue _ s)) with (entries s).
      rewrite bool_decide_eq_false_2 by exact Hc. reflexivity.
Qed.

(** ** Legacy marker migration *)

Lemma ensureCanonicalMarker_fast canonical legacy s :
  Markers.validateMarkerName canonical = None ->
  fault s (SysStat canonical) = None ->
  present canonical s ->
  Steps.ensureCanonicalMarker canonical legacy s =
    ((true, None), issue (SysStat canonical) s).
Proof.
  intros Hv Hf Hp. unfold Steps.ensureCanonicalMarker, bind.
  rewrite (Exists_run _ s Hv Hf).
  rewrite bool_decide_eq_true_2 by exact Hp. reflexivity.
Qed.

Lemma ensureCanonicalMarker_migrates canonical legacy s :
  Markers.validateMarkerName canonical = None ->
  Markers.validateMarkerName legacy = None ->
  io_ok s ->
  present legacy s ->
  ~ present canonical s ->
  Steps.ensureCanonicalMarker canonical [legacy] s =
    ((true, None),
     mkFS (Some (({[canonical]} ∪ entries s) ∖ {[legacy]})) (fault s)
       (calls s ++ [SysStat canonical; SysStat legacy; SysMkdirAll;
                    SysOpenExcl canonical; SysRemove legacy])).
Proof.
  intros Hvc Hvl Hio Hl Hc. unfold present in *.
  assert (legacy <> "") as Hne by (apply validate_None in Hvl; tauto).
  assert (legacy <> canonical) as Hneq by congruence.
  unfold Steps.ensureCanonicalMarker, bind.
  rewrite (Exists_run _ s Hvc (Hio _)).
  rewrite bool_decide_eq_false_2 by exact Hc.
  cbn [Steps.migrateLegacy].
  apply String.eqb_neq in Hne, Hneq. rewrite Hne, Hneq. cbn [orb].
  unfold bind.
  rewrite (Exists_run legacy (issue _ s) Hvl (Hio _)).
  change (entries (issue _ s)) with (entries s).
  rewrite bool_decide_eq_true_2 by exact Hl. cbn [negb].
  rewrite (CreateIfNotExists_run canonical (issue _ (issue _ s)) Hvc
             (Hio _) (Hio _)).
  change (entries (issue _ (issue _ s))) with (entries s).
  rewrite bool_decide_eq_false_2 by exact Hc. cbn [negb].
  match goal with
  | |- context [Markers.Remove legacy ?st] =>
      rewrite (Remove_run legacy st Hvl (Hio _))
  end.
  cbn [tree fault calls issue].
  rewrite bool_decide_eq_true_2 by set_solver.
  unfold ret. rewrite <- !app_assoc. reflexivity.
Qed.

(** C2: with the legacy marker present, the canonical marker absent and
    no I/O failures, two calls of [ensureCanonicalMarker] in a row both
    return [(true, nil)]; after the first call the canonical marker
    exists and the legacy marker is gone, and the second call leaves the
    directory's content as it is. *)
Theorem ensureCanonicalMarker_twice (canonical legacy : string) (s : FS) :
  Markers.validateMarkerName canonical = None ->
  Markers.validateMarkerName legacy = None ->
  io_ok s ->
  present legacy s ->
  ~ present canonical s ->
  exists s1 s2,
    Steps.ensureCanonicalMarker canonical [legacy] s = ((true, None), s1) /\
    present canonical s1 /\
    ~ present legacy s1 /\
    Steps.ensureCanonicalMarker canonical [legacy] s1 = ((true, None), s2) /\
    tree s2 = tree s1.
Proof.
  intros Hvc Hvl Hio Hl Hc.
  assert (legacy <> canonical) as Hneq by (intros ->; tauto).
  eexists. eexists.
  split; [apply ensureCanonicalMarker_migrates; assumption|].
  assert (forall f cs, present canonical
            (mkFS (Some (({[canonical]} ∪ entries s) ∖ {[legacy]})) f cs))
    as Hp1.
  { intros f cs. unfold present. rewrite entries_mkFS. set_solver. }
  split; [apply Hp1|].
  split; [unfold present; rewrite entries_mkFS; set_solver|].
  split.
  - apply ensureCanonicalMarker_fast; [assumption | apply Hio | apply Hp1].
  - reflexivity.
Qed.

(** ** Step execution *)

Lemma GetStatus_completed name s :
  Markers.validateMarkerName name = None ->
  io_ok s ->
  present name s ->
  ~ present (name ++ "-failed") s ->
  fst (Markers.GetStatus name s) = (Markers.StepCompleted, None).
Proof.
  intros Hv Hio Hc Hf. unfold present in *.
  unfold Markers.GetStatus, Markers.IsFailed, bind.
  rewrite (Exists_run _ s (valid_failed _ Hv) (Hio _)).
  rewrite bool_decide_eq_false_2 by exact Hf.
  rewrite (Exists_run name (issue _ s) Hv (Hio _)).
  change (entries (issue _ s)) with (entries s).
  rewrite bool_decide_eq_true_2 by exact Hc. reflexivity.
Qed.

Lemma known_step_selected {Host} (c : Cli.Collaborators Host) info :
  In info Cli.GetAllSteps ->
  Markers.validateMarkerName (Cli.MarkerName info) = None /\
  exists body,
    Cli.selectStep c (Cli.ShortName info) = Some (Cli.MarkerName info, body).
Proof.
  unfold Cli.GetAllSteps. cbn [In].
  intros [<-|[<-|[<-|[<-|[<-|[<-|[<-|[]]]]]]]];
    (split; [reflexivity | eexists; reflexivity]).
Qed.

Lemma RunStep_unfold {Host} (c : Cli.Collaborators Host)
    shortName markerName body w :
  Cli.selectStep c shortName = Some (markerName, body) ->
  Cli.RunStep c shortName w =
    let (err, w1) := body (announce shortName w) in
    Cli.recordOutcome shortName markerName err w1.
Proof.
  intros Hsel. unfold Cli.RunStep, bind. rewrite Hsel. reflexivity.
Qed.

Lemma recordOutcome_failure {Host} shortName markerName e (w : Cli.World Host) :
  Markers.validateMarkerName markerName = None ->
  io_ok (Cli.markers w) ->
  Cli.recordOutcome shortName markerName (Some e) w =
    (Some e,
     Cli.mkWorld
       (mkFS (Some ({[markerName ++ "-failed"]} ∪ entries (Cli.markers w)))
          (fault (Cli.markers w))
          (calls (Cli.markers w) ++
           [SysMkdirAll; SysCreate (markerName ++ "-failed")]))
       (Cli.ui w) (Cli.host w)).
Proof.
  intros Hv Hio.
  unfold Cli.recordOutcome, bind, Cli.onMarkers, Markers.MarkFailed.
  rewrite (Create_run _ _ (valid_failed _ Hv) (Hio _) (Hio _)).
  reflexivity.
Qed.

Lemma recordOutcome_success {Host} shortName markerName (w : Cli.World Host) :
  Markers.validateMarkerName markerName = None ->
  io_ok (Cli.markers w) ->
  Cli.recordOutcome shortName markerName None w =
    (None,
     Cli.mkWorld
       (mkFS (Some ({[markerName]} ∪
                    (entries (Cli.markers w) ∖ {[markerName ++ "-failed"]})))
          (fault (Cli.markers w))
          (calls (Cli.markers w) ++
           [SysRemove (markerName ++ "-failed"); SysMkdirAll;
            SysCreate markerName]))
       (Cli.ui w ++
        [UISuccess ("Step '" ++ shortName ++ "' completed successfully!")])
       (Cli.host w)).
Proof.
  intros Hv Hio.
  unfold Cli.recordOutcome, bind, Cli.onMarkers, Markers.ClearFailure.
  rewrite (Remove_run _ _ (valid_failed _ Hv) (Hio _)).
  cbn [Cli.markers Cli.ui Cli.host ret].
  match goal with
  | |- context [Markers.Create markerName ?st] =>
      rewrite (Create_run markerName st Hv (Hio _) (Hio _))
  end.
  rewrite entries_after_Remove. cbn [fault calls].
  unfold ret, Cli.say. cbn [Cli.markers Cli.ui Cli.host].
  rewrite <- app_assoc. reflexivity.
Qed.

(** C4: for every step of the table, [RunStep] runs the step body and
    then, the marker directory being free of I/O failures: if the body
    returned an error, the failure marker is created, the same error is
    returned and the completion marker is as the body left it; if the
    body succeeded, the failure marker is absent, the completion marker
    is present and [GetStatus] reports [Completed]. *)
Theorem RunStep_records_outcome {Host : Type} (c : Cli.Collaborators Host)
    (info : Cli.StepInfo) (w : Cli.World Host) :
  In info Cli.GetAllSteps ->
  exists body,
    Cli.selectStep c (Cli.ShortName info) = Some (Cli.MarkerName info, body) /\
    forall (err : option error) (w1 : Cli.World Host),
      body (announce (Cli.ShortName info) w) = (err, w1) ->
      io_ok (Cli.markers w1) ->
      exists w2,
        Cli.RunStep c (Cli.ShortName info) w = (err, w2) /\
        match err with
        | Some _ =>
            present (Cli.MarkerName info ++ "-failed") (Cli.markers w2) /\
            (present (Cli.MarkerName info) (Cli.markers w2) <->
             present (Cli.MarkerName info) (Cli.markers w1))
        | None =>
            ~ present (Cli.MarkerName info ++ "-failed") (Cli.markers w2) /\
            present (Cli.MarkerName info) (Cli.markers w2) /\
            fst (Markers.GetStatus (Cli.MarkerName info) (Cli.markers w2))
              = (Markers.StepCompleted, None)
        end.
Proof.
  intros Hin.
  destruct (known_step_selected c info Hin) as [Hv [body Hsel]].
  exists body. split; [exact Hsel|].
  intros err w1 Hbody Hio.
  rewrite (RunStep_unfold c _ _ _ w Hsel), Hbody.
  pose proof (app_failed_neq (Cli.MarkerName info)) as Hneq.
  destruct err as [e|].
  - rewrite (recordOutcome_failure _ _ e w1 Hv Hio).
    eexists. split; [reflexivity|].
    unfold present. cbn [Cli.markers]. rewrite entries_mkFS.
    split; set_solver.
  - rewrite (recordOutcome_success _ _ w1 Hv Hio).
    eexists. split; [reflexivity|].
    cbn [Cli.markers].
    assert (~ present (Cli.MarkerName info ++ "-failed")
              (mkFS (Some ({[Cli.MarkerName info]} ∪
                       (entries (Cli.markers w1)
                          ∖ {[Cli.MarkerName info ++ "-failed"]})))
                 (fault (Cli.markers w1))
                 (calls (Cli.markers w1) ++
                    [SysRemove (Cli.MarkerName info ++ "-failed");
                     SysMkdirAll; SysCreate (Cli.MarkerName info)]))) as Hnf.
    { unfold present. rewrite entries_mkFS. set_solver. }
    assert (present (Cli.MarkerName info)
              (mkFS (Some ({[Cli.MarkerName info]} ∪
                       (entries (Cli.markers w1)
                          ∖ {[Cli.MarkerName info ++ "-failed"]})))
                 (fault (Cli.markers w1))
                 (calls (Cli.markers w1) ++
                    [SysRemove (Cli.MarkerName info ++ "-failed");
                     SysMkdirAll; SysCreate (Cli.MarkerName info)]))) as Hpc.
    { unfold present. rewrite entries_mkFS. set_solver. }
    split; [exact Hnf|]. split; [exact Hpc|].
    apply GetStatus_completed; [exact Hv | exact Hio | exact Hpc | exact Hnf].
Qed.

(** The store hands the failure of a system call to its caller. *)
Lemma Remove_returns_failure name e s :
  Markers.validateMarkerName name = None ->
  fault s (SysRemove name) = Some e ->
  e <> ENOENT ->
  Markers.Remove name s =
    (Some (PathError "remove" name e), issue (SysRemove name) s).
Proof.
  intros Hv Hf Hne. unfold Markers.Remove. rewrite Hv.
  unfold bind, os_Remove. cbn [fault issue]. rewrite Hf.
  destruct e; try reflexivity. contradiction.
Qed.

Lemma Create_returns_mkdir_failure name e s :
  Markers.validateMarkerName name = None ->
  fault s SysMkdirAll = Some e ->
  Markers.Create name s =
    (Some (wrapError "failed to create marker directory: "
             (PathError "mkdir" "." e)),
     issue SysMkdirAll s).
Proof.
  intros Hv Hf. unfold Markers.Create. rewrite Hv.
  unfold bind, os_MkdirAll. cbn [fault issue]. rewrite Hf. reflexivity.
Qed.

Lemma Create_returns_open_failure name e s :
  Markers.validateMarkerName name = None ->
  fault s SysMkdirAll = None ->
  fault s (SysCreate name) = Some e ->
  fst (Markers.Create name s) =
    Some (wrapError "failed to create marker file: "
            (PathError "open" name e)).
Proof.
  intros Hv Hm Hf. unfold Markers.Create. rewrite Hv.
  unfold bind, os_MkdirAll, os_Create. cbn [fault issue]. rewrite Hm.
  cbn [fault issue set_tree tree calls]. rewrite Hf. reflexivity.
Qed.

Lemma selected_marker_valid {Host} (c : Cli.Collaborators Host)
    shortName markerName body :
  Cli.selectStep c shortName = Some (markerName, body) ->
  Markers.validateMarkerName markerName = None.
Proof.
  unfold Cli.selectStep.
  repeat match goal with
         | |- context [String.eqb shortName ?lit] =>
             destruct (String.eqb shortName lit);
             [intros H; injection H as <- _; reflexivity|]
         end.
  discriminate.
Qed.

Lemma recordOutcome_after_success {Host} shortName markerName
    (w : Cli.World Host) :
  exists w2,
    Cli.recordOutcome shortName markerName None w = (None, w2) /\
    (forall e,
       fst (Markers.ClearFailure markerName (Cli.markers w)) = Some e ->
       In (UIWarning ("Failed to clear failure marker: " ++ Error e))
         (Cli.ui w2)) /\
    (forall e,
       fst (Markers.Create markerName
              (snd (Markers.ClearFailure markerName (Cli.markers w))))
         = Some e ->
       In (UIWarning ("Failed to create completion marker: " ++ Error e))
         (Cli.ui w2)).
Proof.
  unfold Cli.recordOutcome, bind, Cli.onMarkers.
  destruct (Markers.ClearFailure markerName (Cli.markers w))
    as [clearErr s1] eqn:Hclear.
  cbn [fst snd].
  destruct clearErr as [ce|];
    unfold Cli.say, ret; cbn [Cli.markers Cli.ui Cli.host];
    destruct (Markers.Create markerName s1) as [createErr s2] eqn:Hcreate;
    cbn [fst snd]; destruct createErr as [cre|];
    cbn [Cli.markers Cli.ui Cli.host];
    eexists; (split; [reflexivity|]); cbn [Cli.ui];
    split; intros e He; try discriminate; injection He as <-;
    rewrite !in_app_iff; cbn [In]; tauto.
Qed.

(** C8, as the code has it: the marker store returns a failing system
    call to [RunStep] as an error ([ClearFailure] the failure of
    [os.Remove], [Create] the wrapped failure of [os.MkdirAll] or of
    [os.Create]), but [RunStep] does not propagate it: once the step
    body has succeeded it returns [nil] whatever the marker writes
    return, and a failure to clear the failure marker or to create the
    completion marker is reported as a warning on the UI. *)
Theorem RunStep_warns_on_marker_write_failure {Host : Type}
    (c : Cli.Collaborators Host) (shortName markerName : string)
    (body : M (Cli.World Host) (option error)) (w w1 : Cli.World Host) :
  Cli.selectStep c shortName = Some (markerName, body) ->
  body (announce shortName w) = (None, w1) ->
  exists w2,
    Cli.RunStep c shortName w = (None, w2) /\
    (forall e,
       fst (Markers.ClearFailure markerName (Cli.markers w1)) = Some e ->
       In (UIWarning ("Failed to clear failure marker: " ++ Error e))
         (Cli.ui w2)) /\
    (forall e,
       fst (Markers.Create markerName
              (snd (Markers.ClearFailure markerName (Cli.markers w1))))
         = Some e ->
       In (UIWarning ("Failed to create completion marker: " ++ Error e))
         (Cli.ui w2)) /\
    (forall e,
       fault (Cli.markers w1) (SysRemove (markerName ++ "-failed")) = Some e ->
       e <> ENOENT ->
       fst (Markers.ClearFailure markerName (Cli.markers w1))
         = Some (PathError "remove" (markerName ++ "-failed") e) /\
       In (UIWarning
             ("Failed to clear failure marker: " ++
              Error (PathError "remove" (markerName ++ "-failed") e)))
         (Cli.ui w2)) /\
    (forall e,
       fault (Cli.markers w1) SysMkdirAll = Some e ->
       fst (Markers.Create markerName
              (snd (Markers.ClearFailure markerName (Cli.markers w1))))
         = Some (wrapError "failed to create marker directory: "
                   (PathError "mkdir" "." e)) /\
       In (UIWarning
             ("Failed to create completion marker: " ++
              Error (wrapError "failed to create marker directory: "
                       (PathError "mkdir" "." e))))
         (Cli.ui w2)) /\
    (forall e,
       fault (Cli.markers w1) SysMkdirAll = None ->
       fault (Cli.markers w1) (SysCreate markerName) = Some e ->
       fst (Markers.Create markerName
              (snd (Markers.ClearFailure markerName (Cli.markers w1))))
         = Some (wrapError "failed to create marker file: "
                   (PathError "open" markerName e)) /\
       In (UIWarning
             ("Failed to create completion marker: " ++
              Error (wrapError "failed to create marker file: "
                       (PathError "open" markerName e))))
         (Cli.ui w2)).
Proof.
  intros Hsel Hbody.
  pose proof (selected_marker_valid c _ _ _ Hsel) as Hv.
  pose proof (valid_failed _ Hv) as Hvf.
  rewrite (RunStep_unfold c _ _ _ w Hsel), Hbody.
  destruct (recordOutcome_after_success shortName markerName w1)
    as (w2 & Hrun & Hclear & Hcreate).
  assert (fault (snd (Markers.ClearFailure markerName (Cli.markers w1)))
          = fault (Cli.markers w1)) as Hfault.
  { unfold Markers.ClearFailure.
    apply (store_keeps_faults (markerName ++ "-failed") (Cli.markers w1)). }
  exists w2. split; [exact Hrun|]. split; [exact Hclear|].
  split; [exact Hcreate|]. split; [|split].
  - intros e Hf Hne.
    assert (fst (Markers.ClearFailure markerName (Cli.markers w1))
            = Some (PathError "remove" (markerName ++ "-failed") e)) as Hret.
    { unfold Markers.ClearFailure.
      rewrite (Remove_returns_failure _ e _ Hvf Hf Hne). reflexivity. }
    split; [exact Hret | apply Hclear, Hret].
  - intros e Hf.
    assert (fst (Markers.Create markerName
                   (snd (Markers.ClearFailure markerName (Cli.markers w1))))
            = Some (wrapError "failed to create marker directory: "
                      (PathError "mkdir" "." e))) as Hret.
    { rewrite (Create_returns_mkdir_failure markerName e _ Hv);
        [reflexivity | rewrite Hfault; exact Hf]. }
    split; [exact Hret | apply Hcreate, Hret].
  - intros e Hm Hf.
    assert (fst (Markers.Create markerName
                   (snd (Markers.ClearFailure markerName (Cli.markers w1))))
            = Some (wrapError "failed to create marker file: "
                      (PathError "open" markerName e))) as Hret.
    { apply (Create_returns_open_failure markerName e _ Hv);
        rewrite Hfault; assumption. }
    split; [exact Hret | apply Hcreate, Hret].
Qed.

(** ** The whole pipeline *)

Lemma runEach_cons {Host} (c : Cli.Collaborators Host) step rest w :
  Cli.runEach c (step :: rest) w =
    let (err, w') := Cli.RunStep c step w in
    match err with
    | Some err => (Some (wrapError ("step " ++ step ++ " failed: ") err), w')
    | None => Cli.runEach c rest w'
    end.
Proof.
  cbn [Cli.runEach]. unfold bind.
  destruct (Cli.RunStep c step w) as [[e|] w']; reflexivity.
Qed.

Lemma runEach_outcome {Host} (c : Cli.Collaborators Host) steps :
  forall w,
    (exists w1, succession c steps w w1 /\ Cli.runEach c steps w = (None, w1))
    \/
    (exists done step later w1 e w2,
       steps = (done ++ step :: later)%list /\
       succession c done w w1 /\
       Cli.RunStep c step w1 = (Some e, w2) /\
       Cli.runEach c steps w =
         (Some (wrapError ("step " ++ step ++ " failed: ") e), w2)).
Proof.
  induction steps as [|step rest IH]; intros w.
  - left. exists w. split; [constructor | reflexivity].
  - rewrite runEach_cons.
    destruct (Cli.RunStep c step w) as [[e|] w'] eqn:Hstep.
    + right. exists [], step, rest, w, e, w'.
      split; [reflexivity|]. split; [constructor|].
      split; [exact Hstep | reflexivity].
    + destruct (IH w') as [[w1 [Hs Hr]] | (done & st & later & w1 & e & w2 &
                                            -> & Hs & Hfail & Hr)].
      * left. exists w1. split; [econstructor; eassumption | exact Hr].
      * right. exists (step :: done), st, later, w1, e, w2.
        split; [reflexivity|]. split; [econstructor; eassumption|].
        split; [exact Hfail | exact Hr].
Qed.

(** C5: [RunAll] runs [RunStep] on the steps of the pipeline in order,
    [wireguard] being in it exactly when it is not skipped; either all succeed, or the steps before
    the first failing one succeeded, the result is an error naming that
    step and wrapping its error, and the final world is the one in
    which the failing [RunStep] returned. *)
Theorem RunAll_order_and_abort {Host : Type} (c : Cli.Collaborators Host)
    (skipWireGuard : bool) (w : Cli.World Host) :
  (In "wireguard" (pipeline skipWireGuard) <-> skipWireGuard = false) /\
  ((exists w1,
     succession c (pipeline skipWireGuard) w w1 /\
     Cli.RunAll c skipWireGuard w =
       (None,
        snd (Cli.say (UISuccess "All steps completed successfully!") w1)))
  \/
  (exists done step later w1 e w2,
     pipeline skipWireGuard = (done ++ step :: later)%list /\
     succession c done w w1 /\
     Cli.RunStep c step w1 = (Some e, w2) /\
     Unwrap (wrapError ("step " ++ step ++ " failed: ") e) = Some e /\
     Cli.RunAll c skipWireGuard w =
       (Some (wrapError ("step " ++ step ++ " failed: ") e), w2))).
Proof.
  split.
  { destruct skipWireGuard; cbn [pipeline In]; split; intros H;
      try reflexivity; try discriminate.
    - repeat (destruct H as [H|H]; [discriminate|]). destruct H.
    - do 3 right. left. reflexivity. }
  assert (Cli.RunAll c skipWireGuard w =
            (let (err, w') := Cli.runEach c (pipeline skipWireGuard) w in
             match err with
             | Some err => (Some err, w')
             | None =>
                 (None,
                  snd (Cli.say (UISuccess "All steps completed successfully!")
                         w'))
             end)) as Hrun.
  { unfold Cli.RunAll, bind. destruct skipWireGuard; cbn [negb];
      cbn [app pipeline];
      match goal with
      | |- context [Cli.runEach c ?l w] =>
          destruct (Cli.runEach c l w) as [[e|] w']; reflexivity
      end. }
  rewrite Hrun.
  destruct (runEach_outcome c (pipeline skipWireGuard) w)
    as [[w1 [Hs Hr]] | (done & st & later & w1 & e & w2 & Heq & Hs & Hf & Hr)].
  - left. exists w1. rewrite Hr. split; [exact Hs | reflexivity].
  - right. exists done, st, later, w1, e, w2. rewrite Hr.
    split; [exact Heq|]. split; [exact Hs|].
    split; [exact Hf|]. split; reflexivity.
Qed.

(** ** Dry-run gateway *)

Lemma perform_dry {D} (f : DryRun.FileSystem D) call (s : DryRun.Sys D) :
  exists msg,
    DryRun.perform (DryRun.NewDryRunFileSystem f true) call s =
      (None, DryRun.mkSys (DryRun.disk s) (DryRun.out s ++ [msg])).
Proof. destruct call; eexists; reflexivity. Qed.

Lemma perform_dry_any {D} (f f' : DryRun.FileSystem D) call
    (s : DryRun.Sys D) :
  DryRun.perform (DryRun.NewDryRunFileSystem f' true) call s =
  DryRun.perform (DryRun.NewDryRunFileSystem f true) call s.
Proof. destruct call; reflexivity. Qed.

Lemma performAll_dry_any {D} (f f' : DryRun.FileSystem D) calls :
  forall s : DryRun.Sys D,
    DryRun.performAll (DryRun.NewDryRunFileSystem f' true) calls s =
    DryRun.performAll (DryRun.NewDryRunFileSystem f true) calls s.
Proof.
  induction calls as [|call rest IH]; intros s; [reflexivity|].
  cbn [DryRun.performAll]. unfold bind.
  rewrite (perform_dry_any f f').
  destruct (DryRun.perform _ call s) as [r s1]. rewrite IH. reflexivity.
Qed.

Lemma performAll_dry {D} (f : DryRun.FileSystem D) calls :
  forall s : DryRun.Sys D,
    Forall (fun r => r = None)
      (fst (DryRun.performAll (DryRun.NewDryRunFileSystem f true) calls s)) /\
    length (fst (DryRun.performAll (DryRun.NewDryRunFileSystem f true) calls s))
      = length calls /\
    DryRun.disk
      (snd (DryRun.performAll (DryRun.NewDryRunFileSystem f true) calls s))
      = DryRun.disk s.
Proof.
  induction calls as [|call rest IH]; intros s.
  - cbn. auto.
  - cbn [DryRun.performAll]. unfold bind at 1 3 5.
    destruct (perform_dry f call s) as [msg ->].
    specialize (IH (DryRun.mkSys (DryRun.disk s) (DryRun.out s ++ [msg]))).
    unfold bind.
    destruct (DryRun.performAll _ rest _) as [rs s'].
    cbn [fst snd length ret] in *. destruct IH as (Hall & Hlen & Hdisk).
    split; [constructor; [reflexivity | exact Hall]|].
    split; [now rewrite Hlen | exact Hdisk].
Qed.

Lemma ask_delegates {D} (f : DryRun.FileSystem D) (b : bool) q
    (s : DryRun.Sys D) :
  DryRun.ask (DryRun.NewDryRunFileSystem f b) q s =
    DryRun.onDisk (DryRun.askWrapped f q) s.
Proof.
  destruct q; cbn [DryRun.ask DryRun.askWrapped];
    unfold DryRun.FileExists, DryRun.DirectoryExists, DryRun.GetOwner,
      DryRun.GetPermissions, DryRun.GetDiskUsage, DryRun.GetDiskUsageHuman,
      DryRun.CountFiles, DryRun.ListDirectory, DryRun.GetFileSize,
      DryRun.IsMount, bind, DryRun.onDisk, ret;
    cbn [DryRun.fs DryRun.NewDryRunFileSystem];
    match goal with
    | |- context [let (_, _) := ?m in _] => destruct m; reflexivity
    end.
Qed.

(** C6: in dry-run mode any sequence of calls of the ten mutating
    methods (and of [BackupFile]) returns a [nil] error every time,
    leaves the disk of the wrapped file system as it was and runs the
    same whatever the wrapped methods are; each of the ten query methods is the wrapped
    query in both modes, so that after those calls it answers what live
    mode answers on the starting disk. *)
Theorem dry_run_purity {D : Type} (f : DryRun.FileSystem D)
    (calls : list DryRun.Mutation) (s : DryRun.Sys D) :
  let dry := DryRun.NewDryRunFileSystem f true in
  let live := DryRun.NewDryRunFileSystem f false in
  let results := fst (DryRun.performAll dry calls s) in
  let s' := snd (DryRun.performAll dry calls s) in
  Forall (fun r => r = None) results /\
  length results = length calls /\
  DryRun.disk s' = DryRun.disk s /\
  (forall f' : DryRun.FileSystem D,
     DryRun.performAll (DryRun.NewDryRunFileSystem f' true) calls s =
     DryRun.performAll dry calls s) /\
  forall q,
    DryRun.ask dry q s' = DryRun.onDisk (DryRun.askWrapped f q) s' /\
    DryRun.ask live q s = DryRun.onDisk (DryRun.askWrapped f q) s /\
    fst (DryRun.ask dry q s') = fst (DryRun.ask live q s).
Proof.
  cbv zeta.
  destruct (performAll_dry f calls s) as (Hall & Hlen & Hdisk).
  split; [exact Hall|]. split; [exact Hlen|]. split; [exact Hdisk|].
  split; [intros f'; apply performAll_dry_any|].
  intros q. rewrite !ask_delegates.
  split; [reflexivity|]. split; [reflexivity|].
  unfold DryRun.onDisk. rewrite Hdisk.
  destruct (DryRun.askWrapped f q (DryRun.disk s)); reflexivity.
Qed.

(** ** Configuration defaults *)

(** C9: [GetOrDefault] is total and returns the stored value when there
    is one, otherwise the entry of the built-in table when there is one,
    otherwise the fallback; for ["NFS_MOUNT_POINT"] with fallback
    ["/custom"] that is the stored value or else ["/mnt/nas"]. *)
Theorem GetOrDefault_resolution (c : Config.Config) (key fallback : string) :
  (forall value, Config.data c !! key = Some value ->
     Config.GetOrDefault c key fallback = value) /\
  (forall defaultValue,
     Config.data c !! key = None -> Config.Defaults !! key = Some defaultValue ->
     Config.GetOrDefault c key fallback = defaultValue) /\
  (Config.data c !! key = None -> Config.Defaults !! key = None ->
   Config.GetOrDefault c key fallback = fallback) /\
  (forall value, Config.data c !! "NFS_MOUNT_POINT" = Some value ->
     Config.GetOrDefault c "NFS_MOUNT_POINT" "/custom" = value) /\
  (Config.data c !! "NFS_MOUNT_POINT" = None ->
   Config.GetOrDefault c "NFS_MOUNT_POINT" "/custom" = "/mnt/nas").
Proof.
  unfold Config.GetOrDefault.
  split; [intros v ->; reflexivity|].
  split; [intros d -> ->; reflexivity|].
  split; [intros -> ->; reflexivity|].
  split; [intros v ->; reflexivity|].
  intros ->. reflexivity.
Qed.

(** ** The claims at concrete inputs *)

Lemma io_ok_dir_with names : io_ok (dir_with names).
Proof. intros c. reflexivity. Defined.

Lemma invalid_name_rejected_before_io_witness :
  mentions "/" "../etc/passwd" /\
  exists err,
    Markers.validateMarkerName "../etc/passwd" = Some err /\
    Markers.Create "../etc/passwd" (dir_with ["user-setup-complete"])
      = (Some err, dir_with ["user-setup-complete"]) /\
    Markers.CreateIfNotExists "../etc/passwd" (dir_with ["user-setup-complete"])
      = ((false, Some err), dir_with ["user-setup-complete"]) /\
    Markers.Exists "../etc/passwd" (dir_with ["user-setup-complete"])
      = ((false, Some err), dir_with ["user-setup-complete"]) /\
    Markers.Remove "../etc/passwd" (dir_with ["user-setup-complete"])
      = (Some err, dir_with ["user-setup-complete"]).
Proof.
  assert (mentions "/" "../etc/passwd") as H
    by (unfold mentions; simpl; tauto).
  split; [exact H|].
  apply (invalid_name_rejected_before_io "../etc/passwd"
           (dir_with ["user-setup-complete"])).
  left. exact H.
Defined.

Lemma CreateIfNotExists_creates_once_witness :
  Markers.validateMarkerName "nfs-setup-complete" = None /\
  io_ok (dir_with ["user-setup-complete"]) /\
  (~ present "nfs-setup-complete" (dir_with ["user-setup-complete"]) ->
   exists s',
     Markers.CreateIfNotExists "nfs-setup-complete"
       (dir_with ["user-setup-complete"]) = ((true, None), s') /\
     present "nfs-setup-complete" s' /\
     entries s' =
       {["nfs-setup-complete"]} ∪ entries (dir_with ["user-setup-complete"])) /\
  (present "nfs-setup-complete" (dir_with ["user-setup-complete"]) ->
   exists s',
     Markers.CreateIfNotExists "nfs-setup-complete"
       (dir_with ["user-setup-complete"]) = ((false, None), s') /\
     tree s' = tree (dir_with ["user-setup-complete"])).
Proof.
  split; [reflexivity|]. split; [apply io_ok_dir_with|].
  apply (CreateIfNotExists_creates_once "nfs-setup-complete"
           (dir_with ["user-setup-complete"]));
    [reflexivity | apply io_ok_dir_with].
Defined.

(** Membership of a literal name in a literal directory, by evaluation. *)
Ltac by_evaluation :=
  unfold present;
  first [apply (bool_decide_eq_true_1 _) | apply (bool_decide_eq_false_1 _)];
  vm_compute; reflexivity.

Lemma well_formed_dir_with names :
  Forall (fun n => Markers.validateMarkerName n = None) names ->
  well_formed (dir_with names).
Proof.
  intros Hall n Hn. unfold present, dir_with, entries in Hn. cbn [tree] in Hn.
  apply elem_of_list_to_set in Hn.
  rewrite list.Forall_forall in Hall. apply Hall, Hn.
Qed.

Lemma GetStatus_precedence_witness :
  well_formed (dir_with ["nfs-setup-complete"; "nfs-setup-complete-failed"]) /\
  io_ok (dir_with ["nfs-setup-complete"; "nfs-setup-complete-failed"]) /\
  fst (Markers.GetStatus "nfs-setup-complete"
         (dir_with ["nfs-setup-complete"; "nfs-setup-complete-failed"]))
    = (Markers.StepFailed, None).
Proof.
  assert (well_formed
            (dir_with ["nfs-setup-complete"; "nfs-setup-complete-failed"]))
    as Hwf.
  { apply well_formed_dir_with. repeat constructor. }
  split; [exact Hwf|]. split; [apply io_ok_dir_with|].
  apply (GetStatus_precedence "nfs-setup-complete" _ Hwf
           (io_ok_dir_with _)).
  - by_evaluation.
  - by_evaluation.
Defined.

Lemma ensureCanonicalMarker_twice_witness :
  Markers.validateMarkerName "nfs-setup-complete" = None /\
  Markers.validateMarkerName "nfs-configured" = None /\
  io_ok (dir_with ["nfs-configured"]) /\
  present "nfs-configured" (dir_with ["nfs-configured"]) /\
  ~ present "nfs-setup-complete" (dir_with ["nfs-configured"]) /\
  exists s1 s2,
    Steps.ensureCanonicalMarker "nfs-setup-complete" ["nfs-configured"]
      (dir_with ["nfs-configured"]) = ((true, None), s1) /\
    present "nfs-setup-complete" s1 /\
    ~ present "nfs-configured" s1 /\
    Steps.ensureCanonicalMarker "nfs-setup-complete" ["nfs-configured"] s1
      = ((true, None), s2) /\
    tree s2 = tree s1.
Proof.
  assert (present "nfs-configured" (dir_with ["nfs-configured"])) as Hl
    by by_evaluation.
  assert (~ present "nfs-setup-complete" (dir_with ["nfs-configured"])) as Hc
    by by_evaluation.
  split; [reflexivity|]. split; [reflexivity|].
  split; [apply io_ok_dir_with|]. split; [exact Hl|]. split; [exact Hc|].
  apply (ensureCanonicalMarker_twice "nfs-setup-complete" "nfs-configured"
           (dir_with ["nfs-configured"]));
    [reflexivity | reflexivity | apply io_ok_dir_with | exact Hl | exact Hc].
Defined.

Lemma RunStep_records_outcome_witness :
  In nfs_info Cli.GetAllSteps /\
  (exists w2,
     Cli.RunStep quiet "nfs" nfs_failed_before = (None, w2) /\
     ~ present "nfs-setup-complete-failed" (Cli.markers w2) /\
     present "nfs-setup-complete" (Cli.markers w2) /\
     fst (Markers.GetStatus "nfs-setup-complete" (Cli.markers w2))
       = (Markers.StepCompleted, None)) /\
  (exists w2,
     Cli.RunStep nfs_unreachable "nfs" nfs_failed_before
       = (Some (errorString "NFS server is not reachable"), w2) /\
     present "nfs-setup-complete-failed" (Cli.markers w2) /\
     (present "nfs-setup-complete" (Cli.markers w2) <->
      present "nfs-setup-complete" (Cli.markers nfs_body_done))).
Proof.
  assert (In nfs_info Cli.GetAllSteps) as Hin by (simpl; tauto).
  assert (io_ok (Cli.markers nfs_body_done)) as Hio
    by (intros c; reflexivity).
  split; [exact Hin|]. split.
  - destruct (RunStep_records_outcome quiet nfs_info nfs_failed_before Hin)
      as [body [Hsel Hout]].
    cbn in Hsel. injection Hsel as <-.
    apply (Hout None nfs_body_done); [vm_compute; reflexivity | exact Hio].
  - destruct (RunStep_records_outcome nfs_unreachable nfs_info
                nfs_failed_before Hin) as [body [Hsel Hout]].
    cbn in Hsel. injection Hsel as <-.
    apply (Hout (Some (errorString "NFS server is not reachable"))
             nfs_body_done); [vm_compute; reflexivity | exact Hio].
Defined.

Lemma RunStep_warns_on_marker_write_failure_witness :
  Cli.selectStep quiet "nfs" = Some ("nfs-setup-complete", Cli.runNFS quiet) /\
  Cli.runNFS quiet (announce "nfs" on_full_disk)
    = (None, on_full_disk_body_done) /\
  fault (Cli.markers on_full_disk_body_done) SysMkdirAll = None /\
  fault (Cli.markers on_full_disk_body_done) (SysCreate "nfs-setup-complete")
    = Some ENOSPC /\
  exists w2,
    Cli.RunStep quiet "nfs" on_full_disk = (None, w2) /\
    fst (Markers.Create "nfs-setup-complete"
           (snd (Markers.ClearFailure "nfs-setup-complete"
                   (Cli.markers on_full_disk_body_done))))
      = Some (wrapError "failed to create marker file: "
                (PathError "open" "nfs-setup-complete" ENOSPC)) /\
    In (UIWarning
          ("Failed to create completion marker: " ++
           Error (wrapError "failed to create marker file: "
                    (PathError "open" "nfs-setup-complete" ENOSPC))))
      (Cli.ui w2).
Proof.
  assert (Cli.runNFS quiet (announce "nfs" on_full_disk)
            = (None, on_full_disk_body_done)) as Hbody
    by (vm_compute; reflexivity).
  split; [reflexivity|]. split; [exact Hbody|].
  split; [reflexivity|]. split; [reflexivity|].
  destruct (RunStep_warns_on_marker_write_failure quiet "nfs"
              "nfs-setup-complete" (Cli.runNFS quiet) on_full_disk
              on_full_disk_body_done eq_refl Hbody)
    as (w2 & Hrun & _ & _ & _ & _ & Hopen).
  exists w2. split; [exact Hrun|].
  exact (Hopen ENOSPC eq_refl eq_refl).
Defined.

(** C8, refuted as stated: on a full disk the step body of ["nfs"]
    succeeds, creating the completion marker fails with an I/O error,
    and [RunStep] returns [nil]; the error only shows as a warning. *)
Lemma RunStep_swallows_marker_write_failure :
  fst (Cli.runNFS quiet (announce "nfs" on_full_disk)) = None /\
  fst (Markers.Create "nfs-setup-complete"
         (snd (Markers.ClearFailure "nfs-setup-complete"
                 (Cli.markers on_full_disk_body_done))))
    = Some (wrapError "failed to create marker file: "
              (PathError "open" "nfs-setup-complete" ENOSPC)) /\
  fst (Cli.RunStep quiet "nfs" on_full_disk) = None /\
  Cli.ui (snd (Cli.RunStep quiet "nfs" on_full_disk)) =
    [UIHeader "Running: nfs";
     UIWarning "Failed to create completion marker: failed to create marker file: open nfs-setup-complete: no space left on device";
     UISuccess "Step 'nfs' completed successfully!"] /\
  ~ present "nfs-setup-complete"
      (Cli.markers (snd (Cli.RunStep quiet "nfs" on_full_disk))).
Proof.
  split; [vm_compute; reflexivity|].
  split; [vm_compute; reflexivity|].
  split; [vm_compute; reflexivity|].
  split; [vm_compute; reflexivity|].
  by_evaluation.
Qed.

(** ** Runs of the pipeline and of the gateway *)

Example RunAll_skipping_wireguard :
  fst (Cli.RunAll quiet true untouched) = None /\
  Cli.ui (snd (Cli.RunAll quiet true untouched)) =
    [UIHeader "Running: preflight";
     UISuccess "Step 'preflight' completed successfully!";
     UIHeader "Running: user";
     UISuccess "Step 'user' completed successfully!";
     UIHeader "Running: directory";
     UISuccess "Step 'directory' completed successfully!";
     UIHeader "Running: nfs";
     UISuccess "Step 'nfs' completed successfully!";
     UIHeader "Running: container";
     UISuccess "Step 'container' completed successfully!";
     UIHeader "Running: deployment";
     UISuccess "Step 'deployment' completed successfully!";
     UISuccess "All steps completed successfully!"].
Proof. split; vm_compute; reflexivity. Qed.

Example RunAll_stops_at_nfs :
  fst (Cli.RunAll nfs_unreachable false untouched) =
    Some (wrapError "step nfs failed: "
            (errorString "NFS server is not reachable")) /\
  Cli.ui (snd (Cli.RunAll nfs_unreachable false untouched)) =
    [UIHeader "Running: preflight";
     UISuccess "Step 'preflight' completed successfully!";
     UIHeader "Running: user";
     UISuccess "Step 'user' completed successfully!";
     UIHeader "Running: directory";
     UISuccess "Step 'directory' completed successfully!";
     UIHeader "Running: wireguard";
     UISuccess "Step 'wireguard' completed successfully!";
     UIHeader "Running: nfs"] /\
  elements (entries (Cli.markers (snd (Cli.RunAll nfs_unreachable false
                                         untouched)))) ≡ₚ
    ["preflight-complete"; "user-setup-complete"; "directory-setup-complete";
     "wireguard-setup-complete"; "nfs-setup-complete-failed"].
Proof.
  split; [vm_compute; reflexivity|]. split; [vm_compute; reflexivity|].
  apply (bool_decide_eq_true_1 _). vm_compute. reflexivity.
Qed.

Example dry_run_leaves_counter :
  DryRun.disk
    (snd (DryRun.performAll (DryRun.NewDryRunFileSystem counting true)
            [DryRun.CallEnsureDirectory "/srv/containers" "core" 493%N;
             DryRun.CallWriteFile "/etc/fstab" [] 420%N;
             DryRun.CallChown "/srv/containers" "core";
             DryRun.CallRemoveDirectory "/srv/old"]
            (DryRun.mkSys 0 []))) = 0 /\
  DryRun.disk
    (snd (DryRun.performAll (DryRun.NewDryRunFileSystem counting false)
            [DryRun.CallEnsureDirectory "/srv/containers" "core" 493%N;
             DryRun.CallWriteFile "/etc/fstab" [] 420%N;
             DryRun.CallChown "/srv/containers" "core";
             DryRun.CallRemoveDirectory "/srv/old"]
            (DryRun.mkSys 0 []))) = 4 /\
  DryRun.disk
    (snd (DryRun.ask (DryRun.NewDryRunFileSystem counting true)
            (DryRun.AskCountFiles "/srv") (DryRun.mkSys 0 []))) = 1.
Proof. repeat split. Qed.

Example GetOrDefault_examples :
  Config.GetOrDefault (Config.mkConfig ∅) "NFS_MOUNT_POINT" "/custom"
    = "/mnt/nas" /\
  Config.GetOrDefault (Config.mkConfig {["NFS_MOUNT_POINT" := "/data"]})
    "NFS_MOUNT_POINT" "/custom" = "/data" /\
  Config.GetOrDefault (Config.mkConfig ∅) "NFS_SERVER" "/custom" = "/custom".
Proof. repeat split; vm_compute; reflexivity. Qed.

(** * Further properties of the code *)

(** ** The marker store under arbitrary I/O failures *)

(** X1: whatever the name and whatever fails, [Create],
    [CreateIfNotExists], [Exists] and [Remove] leave every other marker
    as it is, and [Exists] leaves the directory's content as it is. *)
Theorem store_touches_one_marker (name other : string) (s : FS) :
  other <> name ->
  (present other (snd (Markers.Create name s)) <-> present other s) /\
  (present other (snd (Markers.CreateIfNotExists name s)) <->
   present other s) /\
  (present other (snd (Markers.Remove name s)) <-> present other s) /\
  entries (snd (Markers.Exists name s)) = entries s.
Proof.
  intros Hneq. unfold present.
  repeat split; run_store; set_solver.
Qed.

(** X2: an operation that reports an error has not changed the set of
    markers, and [CreateIfNotExists] changes it only when it returns
    [true]. *)
Theorem failed_operation_changes_nothing (name : string) (s : FS) :
  (fst (Markers.Create name s) <> None ->
   entries (snd (Markers.Create name s)) = entries s) /\
  (fst (fst (Markers.CreateIfNotExists name s)) = false ->
   entries (snd (Markers.CreateIfNotExists name s)) = entries s) /\
  (snd (fst (Markers.CreateIfNotExists name s)) <> None ->
   fst (fst (Markers.CreateIfNotExists name s)) = false) /\
  (fst (Markers.Remove name s) <> None ->
   entries (snd (Markers.Remove name s)) = entries s).
Proof.
  repeat split; run_store; intros H; try reflexivity; try congruence;
    try (exfalso; apply H; reflexivity); set_solver.
Qed.

(** X3: [Exists] never answers [true] for a marker that is not there,
    never answers [true] together with an error, and [GetStatus] never
    changes the directory's content and reports [NotStarted] whenever
    it reports an error; this holds for every name and whatever
    fails. *)
Theorem status_queries_are_safe (name : string) (s : FS) :
  (fst (fst (Markers.Exists name s)) = true ->
   snd (fst (Markers.Exists name s)) = None /\ present name s) /\
  entries (snd (Markers.GetStatus name s)) = entries s /\
  (snd (fst (Markers.GetStatus name s)) <> None ->
   fst (fst (Markers.GetStatus name s)) = Markers.StepNotStarted).
Proof.
  unfold present. split; [|split].
  - unfold Markers.Exists, bind, os_Stat, issue, ret. cbn [fault entries tree].
    destruct (Markers.validateMarkerName name); [cbn; discriminate|].
    destruct (fault s (SysStat name)) as [e|].
    + destruct e; cbn; discriminate.
    + case_bool_decide; cbn; [tauto | discriminate].
  - unfold Markers.GetStatus, Markers.IsFailed. run_store; reflexivity.
  - unfold Markers.GetStatus, Markers.IsFailed. run_store; intros H;
      try reflexivity; exfalso; apply H; reflexivity.
Qed.

(** ** The marker store on a directory without I/O failures *)

(** X4: [Create] is idempotent: on a valid name it succeeds whether or
    not the marker exists, the marker exists afterwards, and a second
    [Create] succeeds again and leaves the directory as the first left
    it. *)
Theorem Create_idempotent (name : string) (s : FS) :
  Markers.validateMarkerName name = None ->
  io_ok s ->
  exists s1 s2,
    Markers.Create name s = (None, s1) /\
    entries s1 = {[name]} ∪ entries s /\
    Markers.Create name s1 = (None, s2) /\
    tree s2 = tree s1.
Proof.
  intros Hv Hio.
  rewrite (Create_run name s Hv (Hio _) (Hio _)).
  eexists. eexists. split; [reflexivity|].
  split; [reflexivity|].
  rewrite Create_run; [| exact Hv | apply Hio | apply Hio].
  split; [reflexivity|].
  cbn [tree]. rewrite entries_mkFS. f_equal. set_solver.
Qed.

(** X5: [Remove] on a valid name succeeds whether or not the marker (or
    even the directory) exists; afterwards the marker is absent, the
    other markers are as before, and [Exists] answers [false]. *)
Theorem Remove_succeeds_when_absent (name : string) (s : FS) :
  Markers.validateMarkerName name = None ->
  io_ok s ->
  exists s',
    Markers.Remove name s = (None, s') /\
    entries s' = entries s ∖ {[name]} /\
    (~ present name s -> tree s' = tree s) /\
    fst (Markers.Exists name s') = (false, None).
Proof.
  intros Hv Hio.
  rewrite (Remove_run name s Hv (Hio _)).
  eexists. split; [reflexivity|].
  split; [apply entries_after_Remove|].
  split.
  - unfold present, entries. cbn [tree]. intros Hp.
    destruct (tree s) as [t|]; [|reflexivity].
    rewrite bool_decide_eq_false_2 by exact Hp. reflexivity.
  - rewrite Exists_run; [| exact Hv | apply Hio].
    rewrite entries_after_Remove.
    rewrite bool_decide_eq_false_2 by set_solver. reflexivity.
Qed.

(** X6: of any number of calls of [CreateIfNotExists] in a row on a
    valid name whose marker is absent, the first returns [(true, nil)]
    and every later one [(false, nil)]. *)
Theorem CreateIfNotExists_first_wins (n : nat) (name : string) (s : FS) :
  Markers.validateMarkerName name = None ->
  io_ok s ->
  ~ present name s ->
  fst (createRepeatedly (S n) name s) =
    (true, None) :: repeat (false, None) n.
Proof.
  intros Hv Hio Hp.
  assert (forall k s0, io_ok s0 -> present name s0 ->
            fst (createRepeatedly k name s0) = repeat (false, None) k) as Hrest.
  { induction k as [|k IH]; intros s0 Hio0 Hp0; [reflexivity|].
    cbn [createRepeatedly]. unfold bind.
    rewrite (CreateIfNotExists_run name s0 Hv (Hio0 _) (Hio0 _)).
    unfold present in Hp0. rewrite bool_decide_eq_true_2 by exact Hp0.
    match goal with
    | |- context [createRepeatedly k name ?st] =>
        specialize (IH st); destruct (createRepeatedly k name st) as [rs st']
    end.
    cbn [fst negb repeat ret]. f_equal. apply IH.
    - intros c. apply Hio0.
    - exact Hp0. }
  cbn [createRepeatedly]. unfold bind.
  rewrite (CreateIfNotExists_run name s Hv (Hio _) (Hio _)).
  unfold present in Hp. rewrite bool_decide_eq_false_2 by exact Hp.
  match goal with
  | |- context [createRepeatedly n name ?st] =>
      specialize (Hrest n st);
      destruct (createRepeatedly n name st) as [rs st']
  end.
  cbn [fst negb ret]. f_equal. apply Hrest.
  - intros c. apply Hio.
  - unfold present. rewrite entries_mkFS. set_solver.
Qed.

(** ** Failure markers *)

Lemma entries_issue c s : entries (issue c s) = entries s.
Proof. reflexivity. Qed.

(** X7: the failure marker of a step is a file of its own: whatever
    fails, [MarkFailed] and [ClearFailure] leave the completion marker
    as it is and [IsFailed] changes nothing. *)
Theorem failure_marker_is_independent (name : string) (s : FS) :
  (present name (snd (Markers.MarkFailed name s)) <-> present name s) /\
  (present name (snd (Markers.ClearFailure name s)) <-> present name s) /\
  entries (snd (Markers.IsFailed name s)) = entries s.
Proof.
  pose proof (app_failed_neq name) as Hneq.
  unfold present, Markers.MarkFailed, Markers.ClearFailure, Markers.IsFailed.
  repeat split; run_store; set_solver.
Qed.

(** X8: [MarkFailed], [ClearFailure] and [IsFailed] validate the derived
    name [name ++ "-failed"], so they reject a step name only for a path
    separator: with a separator they return the validation error before
    any I/O; without one (the empty name, ["."] and [".."] included,
    which [Create] rejects) [MarkFailed] creates the failure marker. *)
Theorem failure_marker_names (name : string) (s : FS) :
  (mentions "/" name \/ mentions "\" name ->
   exists err,
     Markers.validateMarkerName (name ++ "-failed") = Some err /\
     Markers.MarkFailed name s = (Some err, s) /\
     Markers.ClearFailure name s = (Some err, s) /\
     Markers.IsFailed name s = ((false, Some err), s)) /\
  (~ mentions "/" name -> ~ mentions "\" name -> io_ok s ->
   fst (Markers.MarkFailed name s) = None /\
   present (name ++ "-failed") (snd (Markers.MarkFailed name s)) /\
   fst (Markers.IsFailed name (snd (Markers.MarkFailed name s)))
     = (true, None)).
Proof.
  unfold Markers.MarkFailed, Markers.ClearFailure, Markers.IsFailed. split.
  - intros Hsep.
    destruct (Markers.validateMarkerName (name ++ "-failed")) as [err|] eqn:Hv.
    + exists err. unfold Markers.Create, Markers.Remove, Markers.Exists.
      rewrite Hv. repeat split.
    + apply validate_failed in Hv. tauto.
  - intros Hs Hb Hio.
    assert (Markers.validateMarkerName (name ++ "-failed") = None) as Hv
      by (apply validate_failed; tauto).
    rewrite (Create_run _ s Hv (Hio _) (Hio _)). cbn [fst snd].
    split; [reflexivity|].
    assert (present (name ++ "-failed")
              (mkFS (Some ({[name ++ "-failed"]} ∪ entries s)) (fault s)
                 (calls s ++ [SysMkdirAll; SysCreate (name ++ "-failed")])))
      as Hp by (unfold present; rewrite entries_mkFS; set_solver).
    split; [exact Hp|].
    rewrite Exists_run; [| exact Hv | apply Hio].
    rewrite bool_decide_eq_true_2 by exact Hp. reflexivity.
Qed.

(** X9: how the store's operations move the status of a valid step name
    on a directory without I/O failures: after [MarkFailed] it is
    [Failed], also when the step had completed; after [ClearFailure] it
    is [Completed] or [NotStarted] according to the completion marker;
    after [Create] it is [Completed] unless a failure marker stands. *)
Theorem status_transitions (name : string) (s : FS) :
  Markers.validateMarkerName name = None ->
  io_ok s ->
  fst (Markers.GetStatus name (snd (Markers.MarkFailed name s)))
    = (Markers.StepFailed, None) /\
  fst (Markers.GetStatus name (snd (Markers.ClearFailure name s)))
    = (if bool_decide (name ∈ entries s) then Markers.StepCompleted
       else Markers.StepNotStarted, None) /\
  fst (Markers.GetStatus name (snd (Markers.Create name s)))
    = (if bool_decide (name ++ "-failed" ∈ entries s) then Markers.StepFailed
       else Markers.StepCompleted, None).
Proof.
  intros Hv Hio. pose proof (valid_failed _ Hv) as Hvf.
  pose proof (app_failed_neq name) as Hneq.
  unfold Markers.MarkFailed, Markers.ClearFailure, present.
  rewrite (Create_run _ s Hvf (Hio _) (Hio _)).
  rewrite (Remove_run _ s Hvf (Hio _)).
  rewrite (Create_run _ s Hv (Hio _) (Hio _)).
  cbn [snd].
  unfold Markers.GetStatus, Markers.IsFailed, bind.
  split; [|split].
  - rewrite Exists_run; [| exact Hvf | apply Hio].
    rewrite entries_mkFS.
    rewrite bool_decide_eq_true_2 by set_solver. reflexivity.
  - rewrite Exists_run; [| exact Hvf | apply Hio].
    rewrite entries_after_Remove.
    rewrite bool_decide_eq_false_2 by set_solver.
    rewrite Exists_run; [| exact Hv | apply Hio].
    rewrite entries_issue.
    rewrite entries_after_Remove.
    destruct (decide (name ∈ entries s)) as [Hin|Hnin].
    + rewrite (bool_decide_eq_true_2 (name ∈ entries s)) by exact Hin.
      rewrite bool_decide_eq_true_2 by set_solver. reflexivity.
    + rewrite (bool_decide_eq_false_2 (name ∈ entries s)) by exact Hnin.
      rewrite bool_decide_eq_false_2 by set_solver. reflexivity.
  - rewrite Exists_run; [| exact Hvf | apply Hio].
    rewrite entries_mkFS.
    destruct (decide (name ++ "-failed" ∈ entries s)) as [Hin|Hnin].
    + rewrite (bool_decide_eq_true_2 (name ++ "-failed" ∈ entries s))
        by exact Hin.
      rewrite bool_decide_eq_true_2 by set_solver. reflexivity.
    + rewrite (bool_decide_eq_false_2 (name ++ "-failed" ∈ entries s))
        by exact Hnin.
      rewrite bool_decide_eq_false_2 by set_solver.
      rewrite Exists_run; [| exact Hv | apply Hio].
      rewrite entries_issue, entries_mkFS.
      rewrite bool_decide_eq_true_2 by set_solver. reflexivity.
Qed.

(** ** Operations on the whole marker directory *)

Lemma collect_files acc names :
  MarkersDir.collect acc ((fun n => MarkersDir.mkDirEntry n false) <$> names)
  = (acc ++ names)%list.
Proof.
  revert acc. induction names as [|n rest IH]; intros acc; cbn.
  - now rewrite app_nil_r.
  - rewrite IH, <- app_assoc. reflexivity.
Qed.

Lemma collect_skips_directories acc entries :
  MarkersDir.collect acc entries =
    (acc ++ map MarkersDir.entryName
              (List.filter (fun e => negb (MarkersDir.IsDir e)) entries))%list.
Proof.
  revert acc. induction entries as [|e rest IH]; intros acc.
  - cbn. now rewrite app_nil_r.
  - cbn [MarkersDir.collect List.filter].
    destruct (MarkersDir.IsDir e); cbn [negb map].
    + apply IH.
    + rewrite IH, <- app_assoc. reflexivity.
Qed.

(** X10: when [os.Stat] on the directory works, [RemoveAll] never adds
    a marker; if it returns [nil] the directory is gone, so that every
    valid step name is [NotStarted] afterwards; and on a directory that
    does not exist it returns [nil] and does nothing. *)
Theorem RemoveAll_resets (env : MarkersDir.DirEnv) (s : FS) :
  MarkersDir.statDir env = None ->
  entries (snd (MarkersDir.RemoveAll env s)) ⊆ entries s /\
  (tree s = None -> MarkersDir.RemoveAll env s = (None, s)) /\
  (fst (MarkersDir.RemoveAll env s) = None ->
   tree (snd (MarkersDir.RemoveAll env s)) = None /\
   forall name,
     Markers.validateMarkerName name = None -> io_ok s ->
     fst (Markers.GetStatus name (snd (MarkersDir.RemoveAll env s)))
       = (Markers.StepNotStarted, None)).
Proof.
  intros Hstat.
  unfold MarkersDir.RemoveAll, bind, MarkersDir.os_Stat_dir,
    MarkersDir.os_RemoveAll.
  rewrite Hstat.
  destruct (tree s) as [t|] eqn:Ht; cbn [MarkersDir.isNotExist os_IsNotExist].
  - destruct (MarkersDir.removeAll env) as [[e kept]|]; cbn [fst snd].
    + split; [unfold entries; cbn [tree]; rewrite Ht; set_solver|].
      split; [discriminate | discriminate].
    + split; [unfold entries; cbn [tree]; set_solver|].
      split; [discriminate|]. intros _. split; [reflexivity|].
      intros name Hv Hio.
      unfold Markers.GetStatus, Markers.IsFailed, bind.
      rewrite Exists_run; [| apply valid_failed, Hv | apply Hio].
      rewrite bool_decide_eq_false_2
        by (unfold entries; cbn [tree]; set_solver).
      rewrite Exists_run; [| exact Hv | apply Hio].
      rewrite bool_decide_eq_false_2
        by (unfold entries; cbn [tree issue]; set_solver).
      reflexivity.
  - unfold ret. cbn [fst snd]. split; [set_solver|].
    split; [reflexivity|]. intros _. split; [exact Ht|].
    intros name Hv Hio.
    unfold Markers.GetStatus, Markers.IsFailed, bind.
    rewrite Exists_run; [| apply valid_failed, Hv | apply Hio].
    rewrite bool_decide_eq_false_2
      by (unfold entries; rewrite Ht; set_solver).
    rewrite Exists_run; [| exact Hv | apply Hio].
    rewrite bool_decide_eq_false_2
      by (unfold entries; cbn [tree issue]; rewrite Ht; set_solver).
    reflexivity.
Qed.

(** X11: when [os.Stat] and [os.ReadDir] on the directory work, [List]
    returns [nil] as its error, changes nothing, and lists exactly the
    markers of the directory, each once, in the order of their names;
    for a directory that does not exist the list is empty.  Its loop
    keeps the names of the entries that are not directories, in their
    order. *)
Theorem List_reports_markers (env : MarkersDir.DirEnv) (s : FS) :
  MarkersDir.statDir env = None ->
  MarkersDir.readDir env = None ->
  exists names,
    MarkersDir.List env s = ((names, None), s) /\
    Sorted String.le names /\
    base.NoDup names /\
    (forall n, n ∈ names <-> present n s) /\
    (tree s = None -> names = []) /\
    (forall entries,
       MarkersDir.collect [] entries =
         map MarkersDir.entryName
           (List.filter (fun e => negb (MarkersDir.IsDir e)) entries)).
Proof.
  assert (forall entries,
            MarkersDir.collect [] entries =
              map MarkersDir.entryName
                (List.filter (fun e => negb (MarkersDir.IsDir e)) entries))
    as Hcollect by (intros entries; apply collect_skips_directories).
  intros Hstat Hread.
  unfold MarkersDir.List, bind, MarkersDir.os_Stat_dir, MarkersDir.os_ReadDir.
  rewrite Hstat, Hread. unfold present, entries.
  destruct (tree s) as [t|] eqn:Ht;
    cbn [MarkersDir.isNotExist os_IsNotExist].
  - rewrite Ht, collect_files. cbn [app]. eexists. split; [reflexivity|].
    split; [apply Sorted_merge_sort; apply _|].
    split; [rewrite merge_sort_Permutation; apply NoDup_elements|].
    split; [|split; [discriminate | exact Hcollect]].
    intros n. rewrite merge_sort_Permutation. apply elem_of_elements.
  - exists []. split; [reflexivity|].
    split; [constructor|]. split; [constructor|].
    split; [|split; [reflexivity | exact Hcollect]]. intros n. set_solver.
Qed.

(** ** Legacy marker migration, in general *)

Lemma store_entries_effects name s :
  entries (snd (Markers.Exists name s)) = entries s /\
  entries s ⊆ entries (snd (Markers.CreateIfNotExists name s)) /\
  entries (snd (Markers.CreateIfNotExists name s)) ⊆ {[name]} ∪ entries s /\
  (snd (fst (Markers.CreateIfNotExists name s)) <> None ->
   entries (snd (Markers.CreateIfNotExists name s)) = entries s) /\
  entries s ∖ {[name]} ⊆ entries (snd (Markers.Remove name s)) /\
  entries (snd (Markers.Remove name s)) ⊆ entries s.
Proof.
  repeat split; run_store; try intros H; try reflexivity;
    try (exfalso; apply H; reflexivity); set_solver.
Qed.

Lemma migrateLegacy_safety canonical legacy :
  forall s,
    let r := Steps.migrateLegacy canonical legacy s in
    (fst (fst r) = true -> snd (fst r) = None) /\
    (fst (fst r) = false -> entries (snd r) = entries s) /\
    entries (snd r) ⊆ {[canonical]} ∪ entries s /\
    entries s ∖ list_to_set legacy ⊆ entries (snd r).
Proof.
  induction legacy as [|n rest IH]; intros s; cbv zeta.
  - cbn. repeat split; try discriminate; set_solver.
  - cbn [Steps.migrateLegacy].
    destruct ((n =? "") || (n =? canonical)).
    { specialize (IH s). cbv zeta in IH.
      destruct IH as (H1 & H2 & H3 & H4).
      repeat split; try assumption. set_solver. }
    unfold bind.
    destruct (store_entries_effects n s) as (He & _).
    destruct (Markers.Exists n s) as [[b e] s1]. cbn [snd] in He.
    destruct e as [e|].
    { cbn. repeat split; try discriminate; try assumption; set_solver. }
    destruct b; cbn [negb].
    2:{ specialize (IH s1). cbv zeta in IH.
        destruct IH as (H1 & H2 & H3 & H4). rewrite He in *.
        repeat split; try assumption. set_solver. }
    destruct (store_entries_effects canonical s1) as (_ & Hc1 & Hc2 & Hc3 & _).
    destruct (Markers.CreateIfNotExists canonical s1) as [[wc e] s2].
    cbn [fst snd] in Hc1, Hc2, Hc3. rewrite He in *.
    destruct e as [e|].
    { cbn. repeat split; try discriminate.
      - intros _. apply Hc3. discriminate.
      - assumption.
      - set_solver. }
    destruct wc.
    + destruct (store_entries_effects n s2) as (_ & _ & _ & _ & Hr1 & Hr2).
      unfold ret at 1. cbn beta iota.
      destruct (Markers.Remove n s2) as [re s3]. cbn [snd] in Hr1, Hr2.
      cbn. repeat split; try discriminate; set_solver.
    + cbn. repeat split; try discriminate; set_solver.
Qed.

(** X12: whatever the names, the aliases and the I/O failures,
    [ensureCanonicalMarker] answers [true] only with a [nil] error,
    leaves the set of markers unchanged when it answers [false], never
    creates a marker other than the canonical one and never removes a
    marker that is not one of the legacy aliases. *)
Theorem ensureCanonicalMarker_safety (canonical : string)
    (legacy : list string) (s : FS) :
  let r := Steps.ensureCanonicalMarker canonical legacy s in
  (fst (fst r) = true -> snd (fst r) = None) /\
  (fst (fst r) = false -> entries (snd r) = entries s) /\
  entries (snd r) ⊆ {[canonical]} ∪ entries s /\
  entries s ∖ list_to_set legacy ⊆ entries (snd r).
Proof.
  cbv zeta. unfold Steps.ensureCanonicalMarker, bind.
  destruct (store_entries_effects canonical s) as (He & _).
  destruct (Markers.Exists canonical s) as [[b e] s1]. cbn [snd] in He.
  destruct e as [e|].
  { cbn. repeat split; try discriminate; try assumption; set_solver. }
  destruct b.
  { cbn. repeat split; try discriminate; set_solver. }
  pose proof (migrateLegacy_safety canonical legacy s1) as H.
  cbv zeta in H. rewrite He in H. exact H.
Qed.

(** X13: when the canonical marker exists, [ensureCanonicalMarker]
    answers [(true, nil)] after a single [os.Stat]: it looks at no
    legacy alias, whatever the aliases are, and changes nothing. *)
Theorem ensureCanonicalMarker_fast_path (canonical : string)
    (legacy : list string) (s : FS) :
  Markers.validateMarkerName canonical = None ->
  fault s (SysStat canonical) = None ->
  present canonical s ->
  exists s',
    Steps.ensureCanonicalMarker canonical legacy s = ((true, None), s') /\
    tree s' = tree s /\
    calls s' = (calls s ++ [SysStat canonical])%list.
Proof.
  intros Hv Hf Hp.
  rewrite (ensureCanonicalMarker_fast canonical legacy s Hv Hf Hp).
  eexists. repeat split.
Qed.

Lemma migrateLegacy_skip canonical before rest :
  forall s,
    io_ok s ->
    Forall (fun n => n = "" \/ Markers.validateMarkerName n = None) before ->
    (forall n, In n before -> ~ present n s) ->
    exists cs,
      Steps.migrateLegacy canonical (before ++ rest)%list s =
      Steps.migrateLegacy canonical rest
        (mkFS (tree s) (fault s) (calls s ++ cs)).
Proof.
  induction before as [|n before IH]; intros s Hio Hall Habs.
  - exists []. cbn [app]. rewrite app_nil_r. destruct s; reflexivity.
  - inversion Hall as [|? ? Hn Hrest]; subst.
    assert (forall m, In m before -> ~ present m s) as Habs'
      by (intros m Hm; apply Habs; right; exact Hm).
    cbn [app Steps.migrateLegacy].
    destruct (String.eqb_spec n "") as [->|Hne]; cbn [orb].
    { apply IH; assumption. }
    destruct (String.eqb_spec n canonical) as [->|Hnc]; cbn [orb].
    { apply IH; assumption. }
    destruct Hn as [Hn|Hv]; [contradiction|].
    unfold bind. rewrite (Exists_run n s Hv (Hio _)).
    rewrite bool_decide_eq_false_2 by (apply Habs; left; reflexivity).
    cbn [negb].
    destruct (IH (issue (SysStat n) s)) as [cs Hcs];
      [intros c; apply Hio | exact Hrest | exact Habs' |].
    exists (SysStat n :: cs). rewrite Hcs. cbn [issue tree fault calls].
    rewrite <- app_assoc. reflexivity.
Qed.

Lemma migrateLegacy_head canonical n rest s :
  Markers.validateMarkerName canonical = None ->
  Markers.validateMarkerName n = None ->
  io_ok s ->
  present n s ->
  ~ present canonical s ->
  Steps.migrateLegacy canonical (n :: rest) s =
    ((true, None),
     mkFS (Some (({[canonical]} ∪ entries s) ∖ {[n]})) (fault s)
       (calls s ++ [SysStat n; SysMkdirAll; SysOpenExcl canonical;
                    SysRemove n])).
Proof.
  intros Hvc Hvn Hio Hn Hc. unfold present in *.
  assert (n <> "") as Hne by (apply validate_None in Hvn; tauto).
  assert (n <> canonical) as Hneq by congruence.
  cbn [Steps.migrateLegacy].
  apply String.eqb_neq in Hne, Hneq. rewrite Hne, Hneq. cbn [orb].
  unfold bind.
  rewrite (Exists_run n s Hvn (Hio _)).
  rewrite bool_decide_eq_true_2 by exact Hn. cbn [negb].
  rewrite (CreateIfNotExists_run canonical (issue _ s) Hvc (Hio _) (Hio _)).
  rewrite entries_issue.
  rewrite bool_decide_eq_false_2 by exact Hc. cbn [negb].
  match goal with
  | |- context [Markers.Remove n ?st] =>
      rewrite (Remove_run n st Hvn (Hio _))
  end.
  cbn [tree fault calls issue].
  rewrite bool_decide_eq_true_2 by set_solver.
  unfold ret. rewrite <- !app_assoc. reflexivity.
Qed.

(** X14: with a valid canonical name whose marker is absent, aliases
    that are empty or valid, none of them present, and no I/O failure,
    [ensureCanonicalMarker] answers [(false, nil)] and leaves the
    directory's content as it is. *)
Theorem ensureCanonicalMarker_nothing_to_migrate (canonical : string)
    (legacy : list string) (s : FS) :
  Markers.validateMarkerName canonical = None ->
  io_ok s ->
  Forall (fun n => n = "" \/ Markers.validateMarkerName n = None) legacy ->
  ~ present canonical s ->
  (forall n, In n legacy -> ~ present n s) ->
  exists s',
    Steps.ensureCanonicalMarker canonical legacy s = ((false, None), s') /\
    tree s' = tree s.
Proof.
  intros Hv Hio Hall Hc Habs.
  unfold Steps.ensureCanonicalMarker, bind.
  rewrite (Exists_run canonical s Hv (Hio _)).
  rewrite bool_decide_eq_false_2 by exact Hc.
  destruct (migrateLegacy_skip canonical legacy [] (issue (SysStat canonical) s))
    as [cs Hcs]; [intros c; apply Hio | exact Hall | exact Habs |].
  rewrite app_nil_r in Hcs. rewrite Hcs.
  eexists. split; reflexivity.
Qed.

(** X15: with several aliases, the first one whose marker is present is
    the one migrated: the canonical marker is created, that alias is
    removed, [(true, nil)] is returned, and the markers of the later
    aliases stay. *)
Theorem ensureCanonicalMarker_migrates_first (canonical n : string)
    (before after : list string) (s : FS) :
  Markers.validateMarkerName canonical = None ->
  Markers.validateMarkerName n = None ->
  io_ok s ->
  Forall (fun m => m = "" \/ Markers.validateMarkerName m = None) before ->
  (forall m, In m before -> ~ present m s) ->
  present n s ->
  ~ present canonical s ->
  exists s',
    Steps.ensureCanonicalMarker canonical (before ++ n :: after)%list s
      = ((true, None), s') /\
    entries s' = ({[canonical]} ∪ entries s) ∖ {[n]} /\
    (forall m, In m after -> m <> n -> m <> canonical ->
       (present m s' <-> present m s)).
Proof.
  intros Hvc Hvn Hio Hall Habs Hn Hc.
  unfold Steps.ensureCanonicalMarker, bind.
  rewrite (Exists_run canonical s Hvc (Hio _)).
  rewrite bool_decide_eq_false_2 by exact Hc.
  destruct (migrateLegacy_skip canonical before (n :: after)
              (issue (SysStat canonical) s))
    as [cs Hcs]; [intros c; apply Hio | exact Hall | exact Habs |].
  rewrite Hcs.
  rewrite migrateLegacy_head;
    [| exact Hvc | exact Hvn | intros c; apply Hio | exact Hn | exact Hc].
  eexists. split; [reflexivity|].
  change (entries (mkFS (tree (issue (SysStat canonical) s))
                     (fault (issue (SysStat canonical) s))
                     (calls (issue (SysStat canonical) s) ++ cs)))
    with (entries s).
  rewrite entries_mkFS. split; [reflexivity|].
  intros m Hm Hmn Hmc. unfold present in *. rewrite entries_mkFS.
  set_solver.
Qed.

(** ** Step runners *)

Lemma IsStepComplete_run {Host} markerName (w : Cli.World Host) :
  Markers.validateMarkerName markerName = None ->
  fault (Cli.markers w) (SysStat markerName) = None ->
  Cli.IsStepComplete markerName w =
    (bool_decide (markerName ∈ entries (Cli.markers w)), checked markerName w).
Proof.
  intros Hv Hf. unfold Cli.IsStepComplete, bind, Cli.onMarkers.
  rewrite (Exists_run _ _ Hv Hf). reflexivity.
Qed.

Lemma IsStepComplete_fault {Host} markerName e (w : Cli.World Host) :
  Markers.validateMarkerName markerName = None ->
  fault (Cli.markers w) (SysStat markerName) = Some e ->
  Cli.IsStepComplete markerName w = (false, checked markerName w).
Proof.
  intros Hv Hf. unfold Cli.IsStepComplete, bind, Cli.onMarkers, Markers.Exists.
  rewrite Hv. unfold bind, os_Stat. cbn [fault issue]. rewrite Hf.
  destruct e; reflexivity.
Qed.

(** X16: a step runner whose completion marker is found asks "Run
    again?"; when the answer is no, or the prompt fails, it returns
    [nil] in the world the prompt left, whatever the step implementation
    is: the implementation is not run. *)
Theorem rerun_declined_skips_step {Host : Type} (c : Cli.Collaborators Host)
    (markerName info : string) (run : M (Cli.World Host) (option error))
    (w w2 : Cli.World Host) (rerun : bool) (promptErr : option error) :
  Markers.validateMarkerName markerName = None ->
  fault (Cli.markers w) (SysStat markerName) = None ->
  present markerName (Cli.markers w) ->
  Cli.PromptYesNo c "Run again?" false (informed markerName info w)
    = ((rerun, promptErr), w2) ->
  promptErr <> None \/ rerun = false ->
  Cli.runGuarded c markerName info run w = (None, w2).
Proof.
  intros Hv Hf Hp Hprompt Hno.
  unfold Cli.runGuarded. unfold bind at 1.
  rewrite (IsStepComplete_run _ w Hv Hf).
  rewrite bool_decide_eq_true_2 by exact Hp.
  unfold bind, Cli.say. cbn [checked Cli.markers Cli.ui Cli.host].
  change (Cli.mkWorld (issue (SysStat markerName) (Cli.markers w))
            (Cli.ui w ++ [UIInfo info]) (Cli.host w))
    with (informed markerName info w).
  rewrite Hprompt.
  destruct promptErr as [e|]; [reflexivity|].
  destruct Hno as [Hno| ->]; [congruence | reflexivity].
Qed.

(** X17: a step runner that does not find its completion marker, because
    it is absent or because [os.Stat] fails, runs the step
    implementation at once, without a prompt: a failed check counts as
    "not complete". *)
Theorem step_runs_when_marker_not_found {Host : Type}
    (c : Cli.Collaborators Host) (markerName info : string)
    (run : M (Cli.World Host) (option error)) (w : Cli.World Host) :
  Markers.validateMarkerName markerName = None ->
  fault (Cli.markers w) (SysStat markerName) <> None \/
  ~ present markerName (Cli.markers w) ->
  Cli.runGuarded c markerName info run w = run (checked markerName w).
Proof.
  intros Hv Hcase. unfold Cli.runGuarded. unfold bind at 1.
  destruct (fault (Cli.markers w) (SysStat markerName)) as [e|] eqn:Hf.
  - rewrite (IsStepComplete_fault _ e w Hv Hf). reflexivity.
  - rewrite (IsStepComplete_run _ w Hv Hf).
    destruct Hcase as [Hc|Hc]; [congruence|].
    rewrite bool_decide_eq_false_2 by exact Hc. reflexivity.
Qed.

(** X18: when the answer to "Run again?" is yes, the step runner removes
    the completion marker and then runs the step implementation: on a
    directory without I/O failures the implementation starts in a world
    where the marker is absent and nothing else has changed. *)
Theorem rerun_accepted_removes_marker {Host : Type}
    (c : Cli.Collaborators Host) (markerName info : string)
    (run : M (Cli.World Host) (option error)) (w w2 : Cli.World Host) :
  Markers.validateMarkerName markerName = None ->
  fault (Cli.markers w) (SysStat markerName) = None ->
  present markerName (Cli.markers w) ->
  Cli.PromptYesNo c "Run again?" false (informed markerName info w)
    = ((true, None), w2) ->
  io_ok (Cli.markers w2) ->
  exists w3,
    Cli.runGuarded c markerName info run w = run w3 /\
    entries (Cli.markers w3) = entries (Cli.markers w2) ∖ {[markerName]} /\
    Cli.ui w3 = Cli.ui w2 /\
    Cli.host w3 = Cli.host w2.
Proof.
  intros Hv Hf Hp Hprompt Hio.
  unfold Cli.runGuarded. unfold bind at 1.
  rewrite (IsStepComplete_run _ w Hv Hf).
  rewrite bool_decide_eq_true_2 by exact Hp.
  unfold bind, Cli.say. cbn [checked Cli.markers Cli.ui Cli.host].
  change (Cli.mkWorld (issue (SysStat markerName) (Cli.markers w))
            (Cli.ui w ++ [UIInfo info]) (Cli.host w))
    with (informed markerName info w).
  rewrite Hprompt. cbn [negb].
  unfold Cli.removeMarkerIfRerun, bind, Cli.onMarkers.
  rewrite (Remove_run _ _ Hv (Hio _)). unfold ret.
  eexists. split; [reflexivity|].
  cbn [Cli.markers Cli.ui Cli.host].
  split; [apply entries_after_Remove|]. split; reflexivity.
Qed.

(** ** [RunStep] and [RunAll], in general *)

Lemma selectStep_cases {Host} (c : Cli.Collaborators Host) shortName :
  match Cli.selectStep c shortName with
  | Some (markerName, _) =>
      exists info, In info Cli.GetAllSteps /\
                   Cli.ShortName info = shortName /\
                   Cli.MarkerName info = markerName
  | None =>
      forall info, In info Cli.GetAllSteps -> Cli.ShortName info <> shortName
  end.
Proof.
  unfold Cli.selectStep.
  repeat match goal with
         | |- context [String.eqb shortName ?lit] =>
             destruct (String.eqb_spec shortName lit) as [->|?];
             [eexists (Cli.mkStepInfo _ _ _ _ _); cbn;
              split; [|split; reflexivity]; tauto|]
         end.
  intros info. unfold Cli.GetAllSteps. cbn [In].
  intros [<-|[<-|[<-|[<-|[<-|[<-|[<-|[]]]]]]]]; cbn; congruence.
Qed.

(** X19: the table of steps and the [switch] of [RunStep] agree: a short
    name is accepted by [RunStep] exactly when it is in [GetAllSteps],
    the marker [RunStep] writes is the table's [MarkerName], the table
    lists the steps in the order in which [RunAll] runs them, and no
    completion or failure marker name of one step is a marker name of
    another. *)
Theorem step_table_agrees_with_RunStep {Host : Type}
    (c : Cli.Collaborators Host) :
  (forall info, In info Cli.GetAllSteps ->
     exists body,
       Cli.selectStep c (Cli.ShortName info)
         = Some (Cli.MarkerName info, body)) /\
  (forall shortName markerName body,
     Cli.selectStep c shortName = Some (markerName, body) ->
     exists info, In info Cli.GetAllSteps /\
                  Cli.ShortName info = shortName /\
                  Cli.MarkerName info = markerName) /\
  map Cli.ShortName Cli.GetAllSteps = pipeline false /\
  base.NoDup (map Cli.MarkerName Cli.GetAllSteps ++
              map (fun info => Cli.MarkerName info ++ "-failed")
                Cli.GetAllSteps) /\
  (forall w,
     Cli.RunAll c false w =
       let (err, w') :=
         Cli.runEach c (map Cli.ShortName Cli.GetAllSteps) w in
       match err with
       | Some err => (Some err, w')
       | None =>
           (None,
            snd (Cli.say (UISuccess "All steps completed successfully!") w'))
       end).
Proof.
  split; [intros info Hin; apply (known_step_selected c info Hin)|].
  split.
  { intros shortName markerName body Hsel.
    pose proof (selectStep_cases c shortName) as H. rewrite Hsel in H.
    exact H. }
  split; [reflexivity|].
  split; [apply (bool_decide_eq_true_1 _); vm_compute; reflexivity|].
  intros w. unfold Cli.RunAll, bind.
  cbn [negb app map Cli.GetAllSteps Cli.ShortName].
  match goal with
  | |- context [Cli.runEach c ?l w] =>
      destruct (Cli.runEach c l w) as [[e|] w']; reflexivity
  end.
Qed.

(** X20: for a short name that is not in the table, [RunStep] prints the
    header and returns the error "unknown step": no step implementation
    runs and the marker directory is not touched. *)
Theorem RunStep_unknown_step {Host : Type} (c : Cli.Collaborators Host)
    (shortName : string) (w : Cli.World Host) :
  (forall info, In info Cli.GetAllSteps -> Cli.ShortName info <> shortName) ->
  Cli.RunStep c shortName w =
    (Some (errorString ("unknown step: " ++ shortName)),
     announce shortName w).
Proof.
  intros Hunknown.
  pose proof (selectStep_cases c shortName) as H.
  unfold Cli.RunStep, bind.
  destruct (Cli.selectStep c shortName) as [[markerName body]|].
  - destruct H as (info & Hin & Hs & _). exfalso.
    apply (Hunknown info Hin Hs).
  - reflexivity.
Qed.

Lemma Create_Remove_frame name s :
  entries (snd (Markers.Create name s)) ∖ {[name]} = entries s ∖ {[name]} /\
  entries (snd (Markers.Remove name s)) ∖ {[name]} = entries s ∖ {[name]}.
Proof. split; run_store; set_solver. Qed.

Lemma recordOutcome_frame {Host} shortName markerName err
    (w : Cli.World Host) :
  exists w2 msgs,
    Cli.recordOutcome shortName markerName err w = (err, w2) /\
    Cli.host w2 = Cli.host w /\
    Cli.ui w2 = (Cli.ui w ++ msgs)%list /\
    entries (Cli.markers w2) ∖ {[markerName; markerName ++ "-failed"]}
      = entries (Cli.markers w) ∖ {[markerName; markerName ++ "-failed"]}.
Proof.
  unfold Cli.recordOutcome, bind, Cli.onMarkers, Markers.MarkFailed,
    Markers.ClearFailure.
  destruct err as [e|].
  - destruct (Create_Remove_frame (markerName ++ "-failed") (Cli.markers w))
      as [Hc _].
    destruct (Markers.Create (markerName ++ "-failed") (Cli.markers w))
      as [markErr s1]. cbn [snd] in Hc.
    destruct markErr as [me|]; unfold Cli.say, ret;
      cbn [Cli.markers Cli.ui Cli.host].
    + eexists. eexists. split; [reflexivity|]. cbn [Cli.markers Cli.ui Cli.host].
      split; [reflexivity|]. split; [reflexivity|]. set_solver.
    + eexists. exists []. split; [reflexivity|].
      cbn [Cli.markers Cli.ui Cli.host].
      split; [reflexivity|]. split; [now rewrite app_nil_r|]. set_solver.
  - destruct (Create_Remove_frame (markerName ++ "-failed") (Cli.markers w))
      as [_ Hr].
    destruct (Markers.Remove (markerName ++ "-failed") (Cli.markers w))
      as [clearErr s1]. cbn [snd] in Hr.
    destruct (Create_Remove_frame markerName s1) as [Hc _].
    destruct clearErr as [ce|]; unfold Cli.say, ret;
      cbn [Cli.markers Cli.ui Cli.host];
      destruct (Markers.Create markerName s1) as [createErr s2];
      cbn [snd] in Hc;
      destruct createErr as [cre|]; cbn [Cli.markers Cli.ui Cli.host];
      eexists; eexists; (split; [reflexivity|]);
      cbn [Cli.markers Cli.ui Cli.host];
      (split; [reflexivity|]);
      (split; [rewrite <- ?app_assoc; reflexivity|]); set_solver.
Qed.

(** X21: whatever fails in the marker directory, [RunStep] on a known
    step returns exactly what the step body returned; after the body it
    does not touch the machine, only adds to the output, and changes no
    marker other than the step's completion and failure marker. *)
Theorem RunStep_returns_body_result {Host : Type}
    (c : Cli.Collaborators Host) (shortName markerName : string)
    (body : M (Cli.World Host) (option error))
    (w w1 : Cli.World Host) (err : option error) :
  Cli.selectStep c shortName = Some (markerName, body) ->
  body (announce shortName w) = (err, w1) ->
  exists w2 msgs,
    Cli.RunStep c shortName w = (err, w2) /\
    Cli.host w2 = Cli.host w1 /\
    Cli.ui w2 = (Cli.ui w1 ++ msgs)%list /\
    (forall other,
       other <> markerName -> other <> markerName ++ "-failed" ->
       (present other (Cli.markers w2) <-> present other (Cli.markers w1))).
Proof.
  intros Hsel Hbody.
  rewrite (RunStep_unfold c _ _ _ w Hsel), Hbody.
  destruct (recordOutcome_frame shortName markerName err w1)
    as (w2 & msgs & Hrec & Hhost & Hui & Hent).
  exists w2, msgs. split; [exact Hrec|]. split; [exact Hhost|].
  split; [exact Hui|].
  intros other H1 H2. unfold present. set_solver.
Qed.

(** X22: [RunStep] on a step whose completion marker exists, when the
    answer to "Run again?" is no (or the prompt fails), returns [nil]
    without running the step implementation and then records success:
    it clears the failure marker, so that the step is [Completed]
    afterwards even if it was reported [Failed] before. *)
Theorem declined_rerun_marks_completed {Host : Type}
    (c : Cli.Collaborators Host) (shortName markerName info : string)
    (run : M (Cli.World Host) (option error))
    (w w2 : Cli.World Host) (rerun : bool) (promptErr : option error) :
  Cli.selectStep c shortName
    = Some (markerName, Cli.runGuarded c markerName info run) ->
  Markers.validateMarkerName markerName = None ->
  fault (Cli.markers w) (SysStat markerName) = None ->
  present markerName (Cli.markers w) ->
  Cli.PromptYesNo c "Run again?" false
    (informed markerName info (announce shortName w))
    = ((rerun, promptErr), w2) ->
  promptErr <> None \/ rerun = false ->
  io_ok (Cli.markers w2) ->
  exists w3,
    Cli.RunStep c shortName w = (None, w3) /\
    fst (Markers.GetStatus markerName (Cli.markers w3))
      = (Markers.StepCompleted, None) /\
    Cli.host w3 = Cli.host w2.
Proof.
  intros Hsel Hv Hf Hp Hprompt Hno Hio.
  rewrite (RunStep_unfold c _ _ _ w Hsel).
  assert (Cli.runGuarded c markerName info run (announce shortName w)
          = (None, w2)) as Hbody.
  { unfold Cli.runGuarded. unfold bind at 1.
    rewrite (IsStepComplete_run _ (announce shortName w) Hv Hf).
    rewrite bool_decide_eq_true_2 by exact Hp.
    unfold bind, Cli.say. cbn [checked Cli.markers Cli.ui Cli.host].
    change (Cli.mkWorld
              (issue (SysStat markerName)
                 (Cli.markers (announce shortName w)))
              (Cli.ui (announce shortName w) ++ [UIInfo info])
              (Cli.host (announce shortName w)))
      with (informed markerName info (announce shortName w)).
    rewrite Hprompt.
    destruct promptErr as [e|]; [reflexivity|].
    destruct Hno as [Hno| ->]; [congruence | reflexivity]. }
  rewrite Hbody.
  rewrite (recordOutcome_success _ _ w2 Hv Hio).
  pose proof (app_failed_neq markerName) as Hneq.
  eexists. split; [reflexivity|]. cbn [Cli.markers Cli.host].
  split; [|reflexivity].
  apply GetStatus_completed; [exact Hv | exact Hio | |];
    unfold present; rewrite entries_mkFS; set_solver.
Qed.

(** X23: only the step ["wireguard"] uses the WireGuard step
    implementation: [RunStep] on any other short name, and [RunAll] when
    WireGuard is skipped, do the same whatever that implementation is;
    it is never run. *)
Theorem RunAll_skips_wireguard {Host : Type} (c : Cli.Collaborators Host)
    (run : M (Cli.World Host) (option error)) (w : Cli.World Host) :
  (forall shortName,
     shortName <> "wireguard" ->
     Cli.RunStep (withWireGuard c run) shortName w
     = Cli.RunStep c shortName w) /\
  Cli.RunAll (withWireGuard c run) true w = Cli.RunAll c true w.
Proof.
  split; [|reflexivity].
  intros shortName Hne. unfold Cli.RunStep, Cli.selectStep, bind.
  destruct (Cli.say (UIHeader ("Running: " ++ shortName)) w) as [u w0].
  repeat match goal with
         | |- context [String.eqb shortName ?lit] =>
             destruct (String.eqb_spec shortName lit) as [->|?];
             [first [congruence | reflexivity]|]
         end.
  reflexivity.
Qed.

(** ** Dry-run gateway, output *)

Lemma perform_dry_line {D} (f : DryRun.FileSystem D) call (s : DryRun.Sys D) :
  exists msg,
    dry_run_line msg /\
    DryRun.perform (DryRun.NewDryRunFileSystem f true) call s =
      (None, DryRun.mkSys (DryRun.disk s) (DryRun.out s ++ [msg])).
Proof. destruct call; eexists; (split; [|reflexivity]); reflexivity. Qed.

(** X24: in dry-run mode every mutating call adds exactly one line to
    the output, tagged as a dry-run line, after what was printed
    before. *)
Theorem dry_run_logs_each_call {D : Type} (f : DryRun.FileSystem D)
    (calls : list DryRun.Mutation) (s : DryRun.Sys D) :
  exists msgs,
    DryRun.out
      (snd (DryRun.performAll (DryRun.NewDryRunFileSystem f true) calls s))
      = (DryRun.out s ++ msgs)%list /\
    length msgs = length calls /\
    Forall dry_run_line msgs.
Proof.
  revert s. induction calls as [|call rest IH]; intros s.
  - exists []. cbn. rewrite app_nil_r. auto.
  - cbn [DryRun.performAll]. unfold bind.
    destruct (perform_dry_line f call s) as (msg & Hline & ->).
    destruct (IH (DryRun.mkSys (DryRun.disk s) (DryRun.out s ++ [msg])))
      as (msgs & Hout & Hlen & Hall).
    destruct (DryRun.performAll _ rest _) as [rs s'].
    cbn [fst snd DryRun.out ret] in *.
    exists (msg :: msgs). rewrite Hout, <- app_assoc.
    split; [reflexivity|]. split; [cbn; now rewrite Hlen|].
    constructor; assumption.
Qed.

Lemma onDisk_out {D A} (m : M D A) (s : DryRun.Sys D) :
  DryRun.out (snd (DryRun.onDisk m s)) = DryRun.out s.
Proof. unfold DryRun.onDisk. destruct (m (DryRun.disk s)); reflexivity. Qed.

Lemma perform_live_out {D} (f : DryRun.FileSystem D) call (s : DryRun.Sys D) :
  DryRun.out (snd (DryRun.perform (DryRun.NewDryRunFileSystem f false) call s))
  = DryRun.out s.
Proof.
  destruct call; cbn [DryRun.perform]; try apply onDisk_out.
  unfold bind, DryRun.BackupFile.
  cbn [DryRun.dryRun DryRun.NewDryRunFileSystem].
  pose proof (onDisk_out (DryRun.fs_BackupFile f path) s) as H.
  cbn [DryRun.fs DryRun.NewDryRunFileSystem].
  destruct (DryRun.onDisk (DryRun.fs_BackupFile f path) s). exact H.
Qed.

(** X25: in live mode the gateway prints nothing, whatever the calls
    are, and the query methods print nothing in either mode. *)
Theorem live_mode_is_silent {D : Type} (f : DryRun.FileSystem D)
    (calls : list DryRun.Mutation) (s : DryRun.Sys D) :
  DryRun.out
    (snd (DryRun.performAll (DryRun.NewDryRunFileSystem f false) calls s))
    = DryRun.out s /\
  forall (b : bool) (q : DryRun.Query),
    DryRun.out (snd (DryRun.ask (DryRun.NewDryRunFileSystem f b) q s))
    = DryRun.out s.
Proof.
  split.
  - revert s. induction calls as [|call rest IH]; intros s; [reflexivity|].
    cbn [DryRun.performAll]. unfold bind.
    pose proof (perform_live_out f call s) as Hcall.
    destruct (DryRun.perform _ call s) as [r s1]. cbn [snd] in Hcall.
    specialize (IH s1).
    destruct (DryRun.performAll _ rest s1) as [rs s2].
    cbn [snd ret] in *. congruence.
  - intros b q. rewrite ask_delegates. apply onDisk_out.
Qed.

(** ** Sudo checks *)

(** X26: [ValidateAccess] tries [sudo true] only when [sudo -n -v] exits
    with status 1.  When [sudo -n -v] succeeds, and also when it exits
    with any other status, [RequiresPassword] answers [(false, nil)] and
    [ValidateAccess] returns [nil] at once; when it cannot be started,
    both return an error. *)
Theorem ValidateAccess_outcomes {H : Type} (exec : Sudo.Exec H)
    (h h1 : H) (r : Sudo.RunResult) :
  Sudo.Run exec "sudo" ["-n"; "-v"] h = (r, h1) ->
  match r with
  | Sudo.RunOk =>
      Sudo.RequiresPassword exec h = ((false, None), h1) /\
      Sudo.ValidateAccess exec h = (None, h1)
  | Sudo.RunExit code _ =>
      if Z.eqb code 1 then
        Sudo.RequiresPassword exec h = ((true, None), h1) /\
        fst (Sudo.ValidateAccess exec h) =
          match Sudo.runError (fst (Sudo.Run exec "sudo" ["true"] h1)) with
          | Some err => Some (wrapError "sudo authentication failed: " err)
          | None => None
          end
      else
        Sudo.RequiresPassword exec h = ((false, None), h1) /\
        Sudo.ValidateAccess exec h = (None, h1)
  | Sudo.RunFailed err =>
      Sudo.RequiresPassword exec h =
        ((false, Some (wrapError "failed to check sudo status: " err)), h1) /\
      Sudo.ValidateAccess exec h =
        (Some (wrapError "failed to check sudo access: "
                 (wrapError "failed to check sudo status: " err)), h1)
  end.
Proof.
  intros Hrun.
  unfold Sudo.ValidateAccess, Sudo.RequiresPassword, bind. rewrite Hrun.
  destruct r as [|code e|e]; [split; reflexivity| |split; reflexivity].
  destruct (Z.eqb code 1); [|split; reflexivity].
  split; [reflexivity|]. cbn [negb ret].
  destruct (Sudo.Run exec "sudo" ["true"] h1) as [r2 h2]. cbn [fst].
  destruct (Sudo.runError r2); reflexivity.
Qed.

(** X27: [GetSudoConfig] fails exactly when [sudo -n -v] cannot be
    started; otherwise its map says [requires_password] is ["yes"]
    exactly when [sudo -n -v] exited with status 1, always has a
    [recommendation], and has [groups] exactly when the [groups]
    command succeeded. *)
Theorem GetSudoConfig_keys {H : Type} (exec : Sudo.Exec H)
    (h h1 h2 : H) (r r2 : Sudo.RunResult) (output : string) :
  Sudo.Run exec "sudo" ["-n"; "-v"] h = (r, h1) ->
  Sudo.Output exec "groups" [] h1 = ((output, r2), h2) ->
  match r with
  | Sudo.RunFailed err =>
      Sudo.GetSudoConfig exec h =
        ((None, Some (wrapError "failed to check sudo status: " err)), h1)
  | _ =>
      exists info,
        Sudo.GetSudoConfig exec h = ((Some info, None), h2) /\
        info !! "requires_password" =
          Some (match r with
                | Sudo.RunExit code _ => if Z.eqb code 1 then "yes" else "no"
                | _ => "no"
                end) /\
        is_Some (info !! "recommendation") /\
        info !! "groups" =
          match Sudo.runError r2 with
          | None => Some output
          | Some _ => None
          end /\
        forall key, is_Some (info !! key) ->
          key = "requires_password" \/ key = "recommendation" \/
          key = "groups"
  end.
Proof.
  intros Hrun Hout.
  unfold Sudo.GetSudoConfig, Sudo.RequiresPassword, bind. rewrite Hrun.
  destruct r as [|code e|e]; [| |reflexivity].
  - cbn [ret]. rewrite Hout.
    destruct (Sudo.runError r2); eexists; (split; [reflexivity|]);
      (split; [reflexivity|]); (split; [eexists; reflexivity|]);
      (split; [reflexivity|]); intros key [v Hk];
      repeat (apply lookup_insert_Some in Hk as [[<- _]|[_ Hk]]; [tauto|]);
      rewrite lookup_empty in Hk; discriminate.
  - cbn [ret]. rewrite Hout.
    destruct (Z.eqb code 1); destruct (Sudo.runError r2);
      eexists; (split; [reflexivity|]);
      (split; [reflexivity|]); (split; [eexists; reflexivity|]);
      (split; [reflexivity|]); intros key [v Hk];
      repeat (apply lookup_insert_Some in Hk as [[<- _]|[_ Hk]]; [tauto|]);
      rewrite lookup_empty in Hk; discriminate.
Qed.

(** ** Unit files *)

Lemma locate_In (Stat : string -> option error) ls loc :
  Systemd.locate Stat ls = Some loc -> In loc ls /\ Stat loc = None.
Proof.
  induction ls as [|l rest IH]; cbn [Systemd.locate]; [discriminate|].
  destruct (Stat l) as [e|] eqn:Hl.
  - intros H. destruct (IH H). cbn [In]. tauto.
  - intros H. injection H as <-. cbn [In]. tauto.
Qed.

Lemma existsAt_locate (Stat : string -> option error) ls :
  (fst (Systemd.existsAt Stat ls) = true ->
   snd (Systemd.existsAt Stat ls) = None /\
   exists loc, Systemd.locate Stat ls = Some loc /\ In loc ls /\
               Stat loc = None) /\
  (forall loc, Systemd.locate Stat ls = Some loc ->
     Systemd.existsAt Stat ls = (true, None) \/
     exists before bad after err,
       ls = (before ++ bad :: after)%list /\
       In loc after /\
       Stat bad = Some err /\
       os_IsNotExist err = false /\
       Systemd.existsAt Stat ls =
         (false,
          Some (wrapError ("error checking service at " ++ bad ++ ": ") err)))
  /\
  (Systemd.existsAt Stat ls = (false, None) ->
   Systemd.locate Stat ls = None /\
   forall loc, In loc ls ->
     exists e, Stat loc = Some e /\ os_IsNotExist e = true).
Proof.
  induction ls as [|l rest (IH1 & IH2 & IH3)]; cbn [Systemd.existsAt
    Systemd.locate].
  - split; [discriminate|]. split; [discriminate|].
    intros _. split; [reflexivity | intros loc []].
  - destruct (Stat l) as [e|] eqn:Hl.
    + destruct (os_IsNotExist e) eqn:Hne; cbn [negb].
      * split; [|split].
        -- intros Ht. destruct (IH1 Ht) as (He & loc & Hloc & Hin & Hs).
           split; [exact He|]. exists loc. cbn [In]. tauto.
        -- intros loc Hloc.
           destruct (IH2 loc Hloc)
             as [Hok | (before & bad & after & err & -> & Hin & Hs & Hn & Hr)].
           ++ left. exact Hok.
           ++ right. exists (l :: before), bad, after, err.
              split; [reflexivity|]. tauto.
        -- intros Hf. destruct (IH3 Hf) as [Hn Hall].
           split; [exact Hn|]. intros loc [<-|Hin]; [eauto | apply Hall, Hin].
      * split; [discriminate|]. split; [|discriminate].
        intros loc Hloc. right. exists [], l, rest, e.
        destruct (locate_In Stat rest loc Hloc) as [Hin _].
        split; [reflexivity|]. tauto.
    + split; [|split; [|discriminate]].
      * intros _. split; [reflexivity|]. exists l. cbn [In]. tauto.
      * intros loc _. left. reflexivity.
Qed.

(** X28: [ServiceExists] and [GetServiceLocation] look at the same three
    locations in the same order but treat a failing [os.Stat]
    differently.  If [ServiceExists] answers [true], its error is [nil]
    and [GetServiceLocation] returns a location that exists; if
    [GetServiceLocation] finds a location, [ServiceExists] answers
    [(true, nil)] or reports the error of an earlier location, one
    whose [os.Stat] failed otherwise than with "not exist"; and
    [ServiceExists] answers [(false, nil)] only if every location is
    reported as not existing. *)
Theorem service_lookup_agreement (Join : string -> string -> string)
    (Stat : string -> option error) (serviceName : string) :
  (fst (Systemd.ServiceExists Join Stat serviceName) = true ->
   snd (Systemd.ServiceExists Join Stat serviceName) = None /\
   exists loc,
     Systemd.GetServiceLocation Join Stat serviceName = (loc, None) /\
     In loc (Systemd.locations Join serviceName) /\ Stat loc = None) /\
  (snd (Systemd.GetServiceLocation Join Stat serviceName) = None ->
   Systemd.ServiceExists Join Stat serviceName = (true, None) \/
   exists before bad after err,
     Systemd.locations Join serviceName = (before ++ bad :: after)%list /\
     In (fst (Systemd.GetServiceLocation Join Stat serviceName)) after /\
     Stat bad = Some err /\
     os_IsNotExist err = false /\
     Systemd.ServiceExists Join Stat serviceName =
       (false,
        Some (wrapError ("error checking service at " ++ bad ++ ": ") err)))
  /\
  (Systemd.ServiceExists Join Stat serviceName = (false, None) ->
   snd (Systemd.GetServiceLocation Join Stat serviceName) <> None /\
   forall loc, In loc (Systemd.locations Join serviceName) ->
     exists e, Stat loc = Some e /\ os_IsNotExist e = true).
Proof.
  unfold Systemd.ServiceExists, Systemd.GetServiceLocation.
  destruct (existsAt_locate Stat (Systemd.locations Join serviceName))
    as (H1 & H2 & H3).
  split; [|split].
  - intros Ht. destruct (H1 Ht) as (He & loc & Hloc & Hin & Hs).
    split; [exact He|]. exists loc. rewrite Hloc. auto.
  - destruct (Systemd.locate Stat _) as [loc|] eqn:Hloc; [|discriminate].
    intros _. cbn [fst]. apply (H2 loc eq_refl).
  - intros Hf. destruct (H3 Hf) as [Hn Hall]. rewrite Hn.
    split; [discriminate | exact Hall].
Qed.

(** ** The further properties at concrete inputs *)

Lemma store_touches_one_marker_witness :
  "user-setup-complete" <> "nfs-setup-complete" /\
  (present "user-setup-complete"
     (snd (Markers.Remove "nfs-setup-complete"
             (dir_with ["user-setup-complete"; "nfs-setup-complete"])))
   <-> present "user-setup-complete"
         (dir_with ["user-setup-complete"; "nfs-setup-complete"])).
Proof.
  assert ("user-setup-complete" <> "nfs-setup-complete") as Hneq
    by discriminate.
  split; [exact Hneq|].
  apply (store_touches_one_marker "nfs-setup-complete" "user-setup-complete"
           (dir_with ["user-setup-complete"; "nfs-setup-complete"]) Hneq).
Defined.

Lemma Create_idempotent_witness :
  Markers.validateMarkerName "nfs-setup-complete" = None /\
  io_ok no_directory /\
  exists s1 s2,
    Markers.Create "nfs-setup-complete" no_directory = (None, s1) /\
    entries s1 = {["nfs-setup-complete"]} ∪ entries no_directory /\
    Markers.Create "nfs-setup-complete" s1 = (None, s2) /\
    tree s2 = tree s1.
Proof.
  assert (io_ok no_directory) as Hio by (intros c; reflexivity).
  split; [reflexivity|]. split; [exact Hio|].
  apply (Create_idempotent "nfs-setup-complete" no_directory eq_refl Hio).
Defined.

Lemma Remove_succeeds_when_absent_witness :
  Markers.validateMarkerName "nfs-setup-complete" = None /\
  io_ok no_directory /\
  exists s',
    Markers.Remove "nfs-setup-complete" no_directory = (None, s') /\
    entries s' = entries no_directory ∖ {["nfs-setup-complete"]} /\
    (~ present "nfs-setup-complete" no_directory ->
     tree s' = tree no_directory) /\
    fst (Markers.Exists "nfs-setup-complete" s') = (false, None).
Proof.
  assert (io_ok no_directory) as Hio by (intros c; reflexivity).
  split; [reflexivity|]. split; [exact Hio|].
  apply (Remove_succeeds_when_absent "nfs-setup-complete" no_directory
           eq_refl Hio).
Defined.

Lemma CreateIfNotExists_first_wins_witness :
  Markers.validateMarkerName "nfs-setup-complete" = None /\
  io_ok no_directory /\
  ~ present "nfs-setup-complete" no_directory /\
  fst (createRepeatedly 4 "nfs-setup-complete" no_directory) =
    [(true, None); (false, None); (false, None); (false, None)].
Proof.
  assert (io_ok no_directory) as Hio by (intros c; reflexivity).
  assert (~ present "nfs-setup-complete" no_directory) as Hp by by_evaluation.
  split; [reflexivity|]. split; [exact Hio|]. split; [exact Hp|].
  apply (CreateIfNotExists_first_wins 3 "nfs-setup-complete" no_directory
           eq_refl Hio Hp).
Defined.

Lemma status_transitions_witness :
  Markers.validateMarkerName "nfs-setup-complete" = None /\
  io_ok (dir_with ["nfs-setup-complete"]) /\
  fst (Markers.GetStatus "nfs-setup-complete"
         (snd (Markers.MarkFailed "nfs-setup-complete"
                 (dir_with ["nfs-setup-complete"]))))
    = (Markers.StepFailed, None).
Proof.
  split; [reflexivity|]. split; [apply io_ok_dir_with|].
  apply (status_transitions "nfs-setup-complete"
           (dir_with ["nfs-setup-complete"]) eq_refl (io_ok_dir_with _)).
Defined.

Lemma RemoveAll_resets_witness :
  MarkersDir.statDir dir_ok = None /\
  entries (snd (MarkersDir.RemoveAll dir_ok
                  (dir_with ["nfs-setup-complete"; "user-setup-complete"])))
    ⊆ entries (dir_with ["nfs-setup-complete"; "user-setup-complete"]).
Proof.
  split; [reflexivity|].
  apply (RemoveAll_resets dir_ok
           (dir_with ["nfs-setup-complete"; "user-setup-complete"]) eq_refl).
Defined.

Lemma List_reports_markers_witness :
  MarkersDir.statDir dir_ok = None /\
  MarkersDir.readDir dir_ok = None /\
  exists names,
    MarkersDir.List dir_ok
      (dir_with ["user-setup-complete"; "nfs-setup-complete"])
      = ((names, None),
         dir_with ["user-setup-complete"; "nfs-setup-complete"]) /\
    Sorted String.le names /\
    base.NoDup names /\
    (forall n, n ∈ names <->
               present n
                 (dir_with ["user-setup-complete"; "nfs-setup-complete"])) /\
    (tree (dir_with ["user-setup-complete"; "nfs-setup-complete"]) = None ->
     names = []) /\
    (forall entries,
       MarkersDir.collect [] entries =
         map MarkersDir.entryName
           (List.filter (fun e => negb (MarkersDir.IsDir e)) entries)).
Proof.
  split; [reflexivity|]. split; [reflexivity|].
  apply (List_reports_markers dir_ok
           (dir_with ["user-setup-complete"; "nfs-setup-complete"])
           eq_refl eq_refl).
Defined.

Lemma ensureCanonicalMarker_fast_path_witness :
  Markers.validateMarkerName "nfs-setup-complete" = None /\
  fault (dir_with ["nfs-setup-complete"; "nfs-configured"])
    (SysStat "nfs-setup-complete") = None /\
  present "nfs-setup-complete"
    (dir_with ["nfs-setup-complete"; "nfs-configured"]) /\
  exists s',
    Steps.ensureCanonicalMarker "nfs-setup-complete" ["a/b"; "nfs-configured"]
      (dir_with ["nfs-setup-complete"; "nfs-configured"])
      = ((true, None), s') /\
    tree s' = tree (dir_with ["nfs-setup-complete"; "nfs-configured"]) /\
    calls s' =
      (calls (dir_with ["nfs-setup-complete"; "nfs-configured"]) ++
       [SysStat "nfs-setup-complete"])%list.
Proof.
  assert (present "nfs-setup-complete"
            (dir_with ["nfs-setup-complete"; "nfs-configured"])) as Hp
    by by_evaluation.
  split; [reflexivity|]. split; [reflexivity|]. split; [exact Hp|].
  apply (ensureCanonicalMarker_fast_path "nfs-setup-complete"
           ["a/b"; "nfs-configured"]
           (dir_with ["nfs-setup-complete"; "nfs-configured"])
           eq_refl eq_refl Hp).
Defined.

Lemma ensureCanonicalMarker_nothing_to_migrate_witness :
  Markers.validateMarkerName "nfs-setup-complete" = None /\
  io_ok (dir_with ["user-setup-complete"]) /\
  ~ present "nfs-setup-complete" (dir_with ["user-setup-complete"]) /\
  exists s',
    Steps.ensureCanonicalMarker "nfs-setup-complete" [""; "nfs-configured"]
      (dir_with ["user-setup-complete"]) = ((false, None), s') /\
    tree s' = tree (dir_with ["user-setup-complete"]).
Proof.
  assert (~ present "nfs-setup-complete" (dir_with ["user-setup-complete"]))
    as Hc by by_evaluation.
  split; [reflexivity|]. split; [apply io_ok_dir_with|]. split; [exact Hc|].
  apply (ensureCanonicalMarker_nothing_to_migrate "nfs-setup-complete"
           [""; "nfs-configured"] (dir_with ["user-setup-complete"])
           eq_refl (io_ok_dir_with _)).
  - constructor; [left; reflexivity|].
    constructor; [right; reflexivity | constructor].
  - exact Hc.
  - intros n [<-|[<-|[]]]; by_evaluation.
Defined.

Lemma ensureCanonicalMarker_migrates_first_witness :
  present "nfs-configured" (dir_with ["nfs-configured"; "nfs-done"]) /\
  ~ present "nfs-setup-complete" (dir_with ["nfs-configured"; "nfs-done"]) /\
  exists s',
    Steps.ensureCanonicalMarker "nfs-setup-complete"
      ([""; "old-nfs"] ++ "nfs-configured" :: ["nfs-done"])%list
      (dir_with ["nfs-configured"; "nfs-done"]) = ((true, None), s') /\
    entries s' =
      ({["nfs-setup-complete"]} ∪
       entries (dir_with ["nfs-configured"; "nfs-done"]))
        ∖ {["nfs-configured"]} /\
    (forall m, In m ["nfs-done"] -> m <> "nfs-configured" ->
       m <> "nfs-setup-complete" ->
       (present m s' <->
        present m (dir_with ["nfs-configured"; "nfs-done"]))).
Proof.
  assert (present "nfs-configured" (dir_with ["nfs-configured"; "nfs-done"]))
    as Hn by by_evaluation.
  assert (~ present "nfs-setup-complete"
            (dir_with ["nfs-configured"; "nfs-done"])) as Hc by by_evaluation.
  split; [exact Hn|]. split; [exact Hc|].
  apply (ensureCanonicalMarker_migrates_first "nfs-setup-complete"
           "nfs-configured" [""; "old-nfs"] ["nfs-done"]
           (dir_with ["nfs-configured"; "nfs-done"])
           eq_refl eq_refl (io_ok_dir_with _)).
  - constructor; [left; reflexivity|].
    constructor; [right; reflexivity | constructor].
  - intros n [<-|[<-|[]]]; by_evaluation.
  - exact Hn.
  - exact Hc.
Defined.

Lemma rerun_declined_skips_step_witness :
  present "nfs-setup-complete" (Cli.markers nfs_completed) /\
  Cli.PromptYesNo quiet "Run again?" false
    (informed "nfs-setup-complete" "NFS setup already completed"
       nfs_completed)
    = ((false, None),
       informed "nfs-setup-complete" "NFS setup already completed"
         nfs_completed) /\
  Cli.runGuarded quiet "nfs-setup-complete" "NFS setup already completed"
    (Cli.NFSConfigurator_Run eager) nfs_completed
    = (None,
       informed "nfs-setup-complete" "NFS setup already completed"
         nfs_completed).
Proof.
  assert (present "nfs-setup-complete" (Cli.markers nfs_completed)) as Hp
    by by_evaluation.
  split; [exact Hp|]. split; [reflexivity|].
  apply (rerun_declined_skips_step quiet "nfs-setup-complete"
           "NFS setup already completed" (Cli.NFSConfigurator_Run eager)
           nfs_completed _ false None eq_refl eq_refl Hp eq_refl).
  right. reflexivity.
Defined.

Lemma step_runs_when_marker_not_found_witness :
  ~ present "nfs-setup-complete" (Cli.markers untouched) /\
  Cli.runGuarded eager "nfs-setup-complete" "NFS setup already completed"
    (Cli.NFSConfigurator_Run eager) untouched
    = Cli.NFSConfigurator_Run eager (checked "nfs-setup-complete" untouched).
Proof.
  assert (~ present "nfs-setup-complete" (Cli.markers untouched)) as Hp
    by by_evaluation.
  split; [exact Hp|].
  apply (step_runs_when_marker_not_found eager "nfs-setup-complete"
           "NFS setup already completed" (Cli.NFSConfigurator_Run eager)
           untouched eq_refl).
  right. exact Hp.
Defined.

Lemma rerun_accepted_removes_marker_witness :
  present "nfs-setup-complete" (Cli.markers nfs_completed) /\
  io_ok (Cli.markers
           (informed "nfs-setup-complete" "NFS setup already completed"
              nfs_completed)) /\
  exists w3,
    Cli.runGuarded eager "nfs-setup-complete" "NFS setup already completed"
      (Cli.NFSConfigurator_Run eager) nfs_completed
      = Cli.NFSConfigurator_Run eager w3 /\
    entries (Cli.markers w3) =
      entries (Cli.markers
                 (informed "nfs-setup-complete" "NFS setup already completed"
                    nfs_completed)) ∖ {["nfs-setup-complete"]} /\
    Cli.ui w3 =
      Cli.ui (informed "nfs-setup-complete" "NFS setup already completed"
                nfs_completed) /\
    Cli.host w3 =
      Cli.host (informed "nfs-setup-complete" "NFS setup already completed"
                  nfs_completed).
Proof.
  assert (present "nfs-setup-complete" (Cli.markers nfs_completed)) as Hp
    by by_evaluation.
  assert (io_ok (Cli.markers
                   (informed "nfs-setup-complete"
                      "NFS setup already completed" nfs_completed))) as Hio
    by (intros c; reflexivity).
  split; [exact Hp|]. split; [exact Hio|].
  apply (rerun_accepted_removes_marker eager "nfs-setup-complete"
           "NFS setup already completed" (Cli.NFSConfigurator_Run eager)
           nfs_completed _ eq_refl eq_refl Hp eq_refl Hio).
Defined.

Lemma RunStep_unknown_step_witness :
  (forall info, In info Cli.GetAllSteps -> Cli.ShortName info <> "backup") /\
  Cli.RunStep eager "backup" untouched =
    (Some (errorString ("unknown step: " ++ "backup")),
     announce "backup" untouched).
Proof.
  assert (forall info, In info Cli.GetAllSteps ->
                       Cli.ShortName info <> "backup") as Hunknown.
  { intros info. unfold Cli.GetAllSteps. cbn [In].
    intros [<-|[<-|[<-|[<-|[<-|[<-|[<-|[]]]]]]]]; discriminate. }
  split; [exact Hunknown|].
  apply (RunStep_unknown_step eager "backup" untouched Hunknown).
Defined.

Lemma RunStep_returns_body_result_witness :
  Cli.selectStep nfs_unreachable "nfs"
    = Some ("nfs-setup-complete", Cli.runNFS nfs_unreachable) /\
  Cli.runNFS nfs_unreachable (announce "nfs" untouched)
    = (Some (errorString "NFS server is not reachable"),
       checked "nfs-setup-complete" (announce "nfs" untouched)) /\
  exists w2 msgs,
    Cli.RunStep nfs_unreachable "nfs" untouched
      = (Some (errorString "NFS server is not reachable"), w2) /\
    Cli.host w2 =
      Cli.host (checked "nfs-setup-complete" (announce "nfs" untouched)) /\
    Cli.ui w2 =
      (Cli.ui (checked "nfs-setup-complete" (announce "nfs" untouched))
       ++ msgs)%list /\
    (forall other,
       other <> "nfs-setup-complete" ->
       other <> "nfs-setup-complete" ++ "-failed" ->
       (present other (Cli.markers w2) <->
        present other
          (Cli.markers
             (checked "nfs-setup-complete" (announce "nfs" untouched))))).
Proof.
  assert (Cli.runNFS nfs_unreachable (announce "nfs" untouched)
          = (Some (errorString "NFS server is not reachable"),
             checked "nfs-setup-complete" (announce "nfs" untouched)))
    as Hbody by (vm_compute; reflexivity).
  split; [reflexivity|]. split; [exact Hbody|].
  apply (RunStep_returns_body_result nfs_unreachable "nfs"
           "nfs-setup-complete" (Cli.runNFS nfs_unreachable) untouched
           _ _ eq_refl Hbody).
Defined.

Lemma declined_rerun_marks_completed_witness :
  fst (Markers.GetStatus "nfs-setup-complete"
         (Cli.markers nfs_completed_then_failed))
    = (Markers.StepFailed, None) /\
  exists w3,
    Cli.RunStep quiet "nfs" nfs_completed_then_failed = (None, w3) /\
    fst (Markers.GetStatus "nfs-setup-complete" (Cli.markers w3))
      = (Markers.StepCompleted, None) /\
    Cli.host w3 =
      Cli.host (informed "nfs-setup-complete" "NFS setup already completed"
                  (announce "nfs" nfs_completed_then_failed)).
Proof.
  split; [vm_compute; reflexivity|].
  apply (declined_rerun_marks_completed quiet "nfs" "nfs-setup-complete"
           "NFS setup already completed" (Cli.NFSConfigurator_Run quiet)
           nfs_completed_then_failed
           (informed "nfs-setup-complete" "NFS setup already completed"
              (announce "nfs" nfs_completed_then_failed))
           false None eq_refl eq_refl eq_refl).
  - by_evaluation.
  - reflexivity.
  - right. reflexivity.
  - intros c. reflexivity.
Defined.

Lemma ValidateAccess_outcomes_witness :
  Sudo.Run sudo_misconfigured "sudo" ["-n"; "-v"] 0
    = (Sudo.RunExit 2 (errorString "exit status 2"), 1) /\
  Sudo.RequiresPassword sudo_misconfigured 0 = ((false, None), 1) /\
  Sudo.ValidateAccess sudo_misconfigured 0 = (None, 1).
Proof.
  split; [reflexivity|].
  exact (ValidateAccess_outcomes sudo_misconfigured 0 1
           (Sudo.RunExit 2 (errorString "exit status 2")) eq_refl).
Defined.

Lemma GetSudoConfig_keys_witness :
  Sudo.Output sudo_misconfigured "groups" [] 1
    = (("", Sudo.RunFailed (errorString "executable file not found")), 2) /\
  exists info,
    Sudo.GetSudoConfig sudo_misconfigured 0 = ((Some info, None), 2) /\
    info !! "requires_password" = Some "no" /\
    is_Some (info !! "recommendation") /\
    info !! "groups" = None /\
    forall key, is_Some (info !! key) ->
      key = "requires_password" \/ key = "recommendation" \/ key = "groups".
Proof.
  split; [reflexivity|].
  exact (GetSudoConfig_keys sudo_misconfigured 0 1 2
           (Sudo.RunExit 2 (errorString "exit status 2"))
           (Sudo.RunFailed (errorString "executable file not found")) ""
           eq_refl eq_refl).
Defined.
